(** * Meteor impact simulator: hazard model and impact store

    A shallow embedding of [app.py].  Python floats are modelled by the real
    numbers they approximate (rounding error and overflow are outside the
    model), extended where the program can produce them with the complex
    numbers returned by [**] and with the [-inf] and [nan] returned by
    [np.log10].  [np.pi] is the real number [PI]. *)

From Stdlib Require Import Reals Lra Lia ZArith List String Bool DecimalString Machin.
From Stdlib Require Import DecimalPos DecimalZ.
Import ListNotations.
Open Scope R_scope.

(** ** Python values and exceptions *)

(** A Python number as the hazard functions see it: a float, or the complex
    number that [**] returns for a negative base and a fractional exponent. *)
Inductive pynum : Type :=
| Real (x : R)
| Complex (re im : R).

(** The operation that raised a [TypeError]. *)
Inductive type_error : Type :=
| IntOfComplex      (* int(z) on a complex number *)
| RoundOfNone       (* round(None, 2) *)
| RoundOfComplex.   (* round(z, 2) on a complex number *)

Inductive exn : Type :=
| TypeError (what : type_error).

Inductive outcome (A : Type) : Type :=
| Returns (a : A)
| Raises (e : exn).
Arguments Returns {A} a.
Arguments Raises {A} e.

(** The value of [np.log10]: a finite float, [-inf] (at zero) or [nan]
    (below zero).  [+inf] cannot come out of a finite argument. *)
Inductive npfloat : Type :=
| Finite (x : R)
| NegInf
| NaN.

(** ** Built-in operations *)

(** [int(x)] on a float truncates toward zero. *)
Definition py_int (x : R) : Z :=
  if Rle_dec 0 x then Zfloor x else Zceil x.

(** Nearest integer, ties to the even one: the rounding mode of [round]. *)
Definition rint (x : R) : Z :=
  let f := Zfloor x in
  match total_order_T (x - IZR f) (1 / 2) with
  | inleft (left _) => f
  | inleft (right _) => if Z.even f then f else (f + 1)%Z
  | inright _ => (f + 1)%Z
  end.

(** [round(x, ndigits)] on a float. *)
Definition py_round (x : R) (ndigits : nat) : R :=
  IZR (rint (x * 10 ^ ndigits)) / 10 ^ ndigits.

(** [round(v, ndigits)] on a value that may be a complex number. *)
Definition py_round_num (v : pynum) (ndigits : nat) : outcome R :=
  match v with
  | Real x => Returns (py_round x ndigits)
  | Complex _ _ => Raises (TypeError RoundOfComplex)
  end.

(** [round(v, ndigits)] on a value that may be [None]. *)
Definition py_round_opt (v : option R) (ndigits : nat) : outcome R :=
  match v with
  | Some x => Returns (py_round x ndigits)
  | None => Raises (TypeError RoundOfNone)
  end.

(** [int(v)] on a value that may be a complex number. *)
Definition py_int_num (v : pynum) : outcome Z :=
  match v with
  | Real x => Returns (py_int x)
  | Complex _ _ => Raises (TypeError IntOfComplex)
  end.

(** [x ** y] for a float [x] and a positive exponent [y] that is not an
    integer: [pow] for a positive base, [0.0] at zero, and for a negative
    base the complex power in polar form, whose argument is [pi * y]. *)
Definition float_pow (x y : R) : pynum :=
  match total_order_T x 0 with
  | inleft (left _) =>
      Complex (Rpower (- x) y * cos (PI * y)) (Rpower (- x) y * sin (PI * y))
  | inleft (right _) => Real 0
  | inright _ => Real (Rpower x y)
  end.

(** [c * v] and [v * c] for a float [c]. *)
Definition pynum_scale (c : R) (v : pynum) : pynum :=
  match v with
  | Real x => Real (c * x)
  | Complex re im => Complex (c * re) (c * im)
  end.

(** [v ** 2]. *)
Definition pynum_sqr (v : pynum) : pynum :=
  match v with
  | Real x => Real (x ^ 2)
  | Complex re im => Complex (re * re - im * im) (re * im + im * re)
  end.

Definition np_log10 (x : R) : npfloat :=
  match total_order_T x 0 with
  | inleft (left _) => NaN
  | inleft (right _) => NegInf
  | inright _ => Finite (ln x / ln 10)
  end.

(** [c * v] for a positive float [c]. *)
Definition npfloat_scale (c : R) (v : npfloat) : npfloat :=
  match v with
  | Finite x => Finite (c * x)
  | NegInf => NegInf
  | NaN => NaN
  end.

(** [v - c] for a float [c]. *)
Definition npfloat_sub (v : npfloat) (c : R) : npfloat :=
  match v with
  | Finite x => Finite (x - c)
  | NegInf => NegInf
  | NaN => NaN
  end.

(** [max(0, v)]: [v] replaces [0] only when [v > 0] holds, which it does for
    neither [-inf] nor [nan]. *)
Definition py_max0 (v : npfloat) : R :=
  match v with
  | Finite x => if Rlt_dec 0 x then x else 0
  | NegInf => 0
  | NaN => 0
  end.

(** ** Hazard calculations *)

Definition default_density : R := 3000.

Definition asteroid_kinetic_energy (diameter_m velocity_km_s density : R) : R :=
  let radius := diameter_m / 2 in
  let volume := 4 / 3 * PI * radius ^ 3 in
  let mass := density * volume in
  let velocity := velocity_km_s * 1000 in
  let energy_joules := 0.5 * mass * velocity ^ 2 in
  energy_joules / 4.184e15.

Definition impact_radius_km (megatons : R) : pynum :=
  pynum_scale 1.5 (float_pow megatons (1 / 3)).

Definition population_affected (pop_density_per_km2 : R) (radius_km : pynum)
  : outcome Z :=
  let area_km2 := pynum_scale PI (pynum_sqr radius_km) in
  py_int_num (pynum_scale pop_density_per_km2 area_km2).

Definition impact_earthquake_magnitude (megatons : R) : R :=
  let E_joules := megatons * 4.184e15 in
  let magnitude := npfloat_sub (npfloat_scale 0.67 (np_log10 E_joules)) 10.7 in
  py_round (py_max0 magnitude) 1.

(** The magnitude in the words of the specification: the formula clamped at
    zero, with no rounding.  It is compared with the function above. *)
Definition spec_earthquake_magnitude (megatons : R) : R :=
  Rmax 0 (0.67 * (ln (megatons * 4.184e15) / ln 10) - 10.7).

(** ** Requests, impact records and the impact file *)

(** The JSON body of a simulate request.  A field is [None] when the body
    omits it; the fields that are present hold numbers. *)
Module Request.
Record t : Type := mk {
  diameter_m : option R;
  velocity_km_s : option R;
  latitude : option R;
  longitude : option R;
  pop_density_per_km2 : option R
}.
End Request.

(** The [result] dictionary of [simulate_impact], which is also a record of
    the impact file.  [name] holds the two rounded coordinates that the
    f-string prints. *)
Module Impact.
Record t : Type := mk {
  id : string;
  name : R * R;
  latitude : option R;
  longitude : option R;
  diameter_m : R;
  velocity_km_s : R;
  energy_megatons : R;
  impact_radius_km : R;
  population_affected : Z;
  earthquake_magnitude : R
}.
End Impact.

(** [IMPACT_FILE] on disk: absent, not JSON, or the JSON list that
    [json.dump] wrote. *)
Inductive file_state : Type :=
| Missing
| Unparseable
| Holds (impacts : list Impact.t).

(** A JSON response: status code and the single key and text of its body. *)
Inductive response : Type :=
| Response (status : Z) (key text : string).

(** ** Computations that read and write the impact file and may raise *)

Definition M (A : Type) : Type := file_state -> outcome A * file_state.

Definition ret {A : Type} (a : A) : M A := fun fs => (Returns a, fs).

Definition bind {A B : Type} (m : M A) (k : A -> M B) : M B :=
  fun fs =>
    match m fs with
    | (Returns a, fs') => k a fs'
    | (Raises e, fs') => (Raises e, fs')
    end.

Definition lift {A : Type} (o : outcome A) : M A := fun fs => (o, fs).

(** [json.dump(impacts, f)] on the file opened for writing. *)
Definition write_file (impacts : list Impact.t) : M unit :=
  fun _ => (Returns tt, Holds impacts).

Declare Scope py_scope.
Delimit Scope py_scope with py.
Notation "x <- m ;; k" := (bind m (fun x => k))
  (at level 100, m at next level, right associativity) : py_scope.
Notation "m ;; k" := (bind m (fun _ => k))
  (at level 100, right associativity) : py_scope.
Open Scope py_scope.

(** [data.get(key, default)]. *)
Definition get (field : option R) (default : R) : R :=
  match field with
  | Some x => x
  | None => default
  end.

(** ** Data management *)

Definition load_impacts : M (list Impact.t) :=
  fun fs =>
    match fs with
    | Holds impacts => (Returns impacts, fs)
    | Unparseable => (Returns [], fs)
    | Missing => (Returns [], fs)
    end.

Definition save_impact (impact : Impact.t) : M unit :=
  impacts <- load_impacts ;;
  write_file (impacts ++ [impact]).

(** ** Simulate and save an impact *)

(** [rnd] is the value drawn by [np.random.randint(10000, 99999)]. *)
Definition simulate_impact (data : Request.t) (rnd : Z) : M Impact.t :=
  let diameter := get (Request.diameter_m data) 50 in
  let velocity := get (Request.velocity_km_s data) 20 in
  let lat := Request.latitude data in
  let lon := Request.longitude data in
  let pop_density := get (Request.pop_density_per_km2 data) 1000 in
  let energy_mt := asteroid_kinetic_energy diameter velocity default_density in
  let radius_km := impact_radius_km energy_mt in
  population <- lift (population_affected pop_density radius_km) ;;
  let earthquake_mag := impact_earthquake_magnitude energy_mt in
  let sim_id := ("sim_" ++ NilZero.string_of_int (Z.to_int rnd))%string in
  name_lat <- lift (py_round_opt lat 2) ;;
  name_lon <- lift (py_round_opt lon 2) ;;
  radius_2 <- lift (py_round_num radius_km 2) ;;
  let result :=
    {| Impact.id := sim_id;
       Impact.name := (name_lat, name_lon);
       Impact.latitude := lat;
       Impact.longitude := lon;
       Impact.diameter_m := diameter;
       Impact.velocity_km_s := velocity;
       Impact.energy_megatons := py_round energy_mt 2;
       Impact.impact_radius_km := radius_2;
       Impact.population_affected := population;
       Impact.earthquake_magnitude := earthquake_mag |} in
  save_impact result ;;
  ret result.

(** ** Delete an impact *)

Definition delete_impact (impact_id : string) : M response :=
  impacts <- load_impacts ;;
  let new_impacts :=
    filter (fun i => negb (String.eqb (Impact.id i) impact_id)) impacts in
  if Nat.eqb (List.length new_impacts) (List.length impacts) then
    ret (Response 404 "error" "Impact not found")
  else
    write_file new_impacts ;;
    ret (Response 200 "message" ("Impact " ++ impact_id ++ " deleted")).

(** What [load_impacts] returns on a given file. *)
Definition stored (fs : file_state) : list Impact.t :=
  match fs with
  | Holds impacts => impacts
  | Unparseable => []
  | Missing => []
  end.

(** ** Historical impacts and the catalog *)

(** An entry of [HISTORICAL_IMPACTS]; its keys differ from those of a
    simulated record. *)
Module Historical.
Record t : Type := mk {
  id : string;
  name : string;
  size : R;
  speed : R;
  lat : R;
  lon : R
}.
End Historical.

Definition HISTORICAL_IMPACTS : list Historical.t :=
  [ {| Historical.id := "chicxulub"; Historical.name := "Chicxulub (66Mya)";
       Historical.size := 10; Historical.speed := 20;
       Historical.lat := 21.4; Historical.lon := - 89.0 |};
    {| Historical.id := "tunguska"; Historical.name := "Tunguska (1908)";
       Historical.size := 0.05; Historical.speed := 16;
       Historical.lat := 60.9; Historical.lon := 101.9 |};
    {| Historical.id := "chelyabinsk"; Historical.name := "Chelyabinsk (2013)";
       Historical.size := 0.02; Historical.speed := 19;
       Historical.lat := 54.9; Historical.lon := 61.1 |} ].

(** An element of the list that [get_impacts] returns. *)
Inductive catalog_entry : Type :=
| HistoricalEntry (h : Historical.t)
| SimulatedEntry (i : Impact.t).


Definition get_impacts : M (list catalog_entry) :=
  simulated <- load_impacts ;;
  let combined :=
    map HistoricalEntry HISTORICAL_IMPACTS ++ map SimulatedEntry simulated in
  ret combined.

(** ** NASA near-earth-object adapter *)

(** An element of [data["near_earth_objects"]], with the keys that the loop
    reads.  [close_approach_data] holds, for each approach, the string under
    [relative_velocity.kilometers_per_second]. *)
Module Neo.
Record t : Type := mk {
  id : string;
  name : string;
  estimated_diameter_max : R;
  close_approach_data : list string;
  is_potentially_hazardous_asteroid : bool
}.
End Neo.

(** An element of the [asteroids] list of the response. *)
Module Asteroid.
Record t : Type := mk {
  id : string;
  name : string;
  diameter_m : R;
  velocity_km_s : R;
  hazardous : bool
}.
End Asteroid.

(** What [requests.get], [raise_for_status] and [resp.json()] yield: an
    exception, or the list under [near_earth_objects]. *)
Inductive upstream : Type :=
| UpstreamFailed
| UpstreamData (near_earth_objects : list Neo.t).

(** The response of [get_nasa_asteroids]. *)
Inductive nasa_response : Type :=
| NasaOk (count : nat) (asteroids : list Asteroid.t)
| NasaError (status : Z) (key text : string).

Section Adapter.

(** The built-in [float] on a string; [None] stands for its [ValueError]. *)
Variable py_float : string -> option R.

(** The relative velocity of one object: the first approach, or 20. *)
Definition rel_vel (neo : Neo.t) : option R :=
  match Neo.close_approach_data neo with
  | first :: _ => py_float first
  | [] => Some 20
  end.

(** One turn of the loop: the summary appended for [neo], or [None] when the
    turn raises. *)
Definition summarize (neo : Neo.t) : option Asteroid.t :=
  match rel_vel neo with
  | Some v =>
      Some {| Asteroid.id := Neo.id neo;
              Asteroid.name := Neo.name neo;
              Asteroid.diameter_m := py_round (Neo.estimated_diameter_max neo) 2;
              Asteroid.velocity_km_s := py_round v 2;
              Asteroid.hazardous := Neo.is_potentially_hazardous_asteroid neo |}
  | None => None
  end.

(** The loop over the objects, appending to [asteroids]. *)
Fixpoint collect (neos : list Neo.t) (asteroids : list Asteroid.t)
  : option (list Asteroid.t) :=
  match neos with
  | [] => Some asteroids
  | neo :: rest =>
      match summarize neo with
      | Some a => collect rest (asteroids ++ [a])
      | None => None
      end
  end.

Definition get_nasa_asteroids (resp : upstream) : nasa_response :=
  match resp with
  | UpstreamData near_earth_objects =>
      match collect near_earth_objects [] with
      | Some asteroids => NasaOk (List.length asteroids) asteroids
      | None => NasaError 500 "error" "Failed to fetch from NASA API"
      end
  | UpstreamFailed => NasaError 500 "error" "Failed to fetch from NASA API"
  end.

End Adapter.

(** ** Concrete requests and records used below *)

Definition sample_impact (diameter : R) : Impact.t :=
  {| Impact.id := "sim_12345";
     Impact.name := (0, 0);
     Impact.latitude := Some 0;
     Impact.longitude := Some 0;
     Impact.diameter_m := diameter;
     Impact.velocity_km_s := 20;
     Impact.energy_megatons := 0;
     Impact.impact_radius_km := 0;
     Impact.population_affected := 0%Z;
     Impact.earthquake_magnitude := 0 |}.

Definition other_impact : Impact.t :=
  {| Impact.id := "sim_54321";
     Impact.name := (1, 1);
     Impact.latitude := Some 1;
     Impact.longitude := Some 1;
     Impact.diameter_m := 10;
     Impact.velocity_km_s := 20;
     Impact.energy_megatons := 0;
     Impact.impact_radius_km := 0;
     Impact.population_affected := 0%Z;
     Impact.earthquake_magnitude := 0 |}.

(** Two different records that share the id [sim_12345]. *)
Definition shared_id_file : file_state :=
  Holds [sample_impact 50; sample_impact 60].

Definition distinct_id_file : file_state :=
  Holds [sample_impact 50; other_impact].

(** The body [{"latitude": 0, "longitude": 0}]: every default is taken. *)
Definition default_request : Request.t :=
  {| Request.diameter_m := None;
     Request.velocity_km_s := None;
     Request.latitude := Some 0;
     Request.longitude := Some 0;
     Request.pop_density_per_km2 := None |}.

(** The empty body [{}]. *)
Definition empty_request : Request.t :=
  {| Request.diameter_m := None;
     Request.velocity_km_s := None;
     Request.latitude := None;
     Request.longitude := None;
     Request.pop_density_per_km2 := None |}.

(** The body [{"diameter_m": -10}]. *)
Definition negative_diameter_request : Request.t :=
  {| Request.diameter_m := Some (-10);
     Request.velocity_km_s := None;
     Request.latitude := None;
     Request.longitude := None;
     Request.pop_density_per_km2 := None |}.

(** The body [{"diameter_m": 0, "latitude": 0, "longitude": 0}]. *)
Definition zero_diameter_request : Request.t :=
  {| Request.diameter_m := Some 0;
     Request.velocity_km_s := None;
     Request.latitude := Some 0;
     Request.longitude := Some 0;
     Request.pop_density_per_km2 := None |}.

(** Two upstream objects: one with two approaches, one with none. *)
Definition sample_neos : list Neo.t :=
  [ {| Neo.id := "2000433"; Neo.name := "433 Eros";
       Neo.estimated_diameter_max := 48711.2;
       Neo.close_approach_data := ["5.58"; "not a number"]%string;
       Neo.is_potentially_hazardous_asteroid := false |};
    {| Neo.id := "2000719"; Neo.name := "719 Albert";
       Neo.estimated_diameter_max := 4525.7;
       Neo.close_approach_data := [];
       Neo.is_potentially_hazardous_asteroid := true |} ].

(** A stand-in for [float] that reads the one string it needs. *)
Definition sample_float (s : string) : option R :=
  if (s =? "5.58")%string then Some 5.58 else None.

(** ** Notions used in the statements below *)

(** The identifier that [simulate_impact] builds from the draw. *)
Definition sim_id (rnd : Z) : string :=
  ("sim_" ++ NilZero.string_of_int (Z.to_int rnd))%string.

(** The catalog entries that a deletion of [impact_id] leaves. *)
Definition keeps_entry (impact_id : string) (c : catalog_entry) : bool :=
  match c with
  | HistoricalEntry _ => true
  | SimulatedEntry i => negb (Impact.id i =? impact_id)%string
  end.

(** What one upstream object and its summary have in common. *)
Definition summarizes (py_float : string -> option R)
  (neo : Neo.t) (a : Asteroid.t) : Prop :=
  Asteroid.id a = Neo.id neo /\
  Asteroid.name a = Neo.name neo /\
  Asteroid.hazardous a = Neo.is_potentially_hazardous_asteroid neo /\
  Asteroid.diameter_m a = py_round (Neo.estimated_diameter_max neo) 2 /\
  match Neo.close_approach_data neo with
  | first :: _ =>
      exists v, py_float first = Some v /\ Asteroid.velocity_km_s a = py_round v 2
  | [] => Asteroid.velocity_km_s a = 20
  end.

(** A bounded search over consecutive integers, used to check every draw. *)
Fixpoint all_from (z : Z) (fuel : nat) (p : Z -> bool) : bool :=
  match fuel with
  | O => true
  | S fuel' => p z && all_from (z + 1) fuel' p
  end.

(** ** The impact store *)

(** Equality of impact records is decidable, so that occurrences in the
    stored list can be counted. *)
Lemma impact_eq_dec (a b : Impact.t) : {a = b} + {a <> b}.
Proof.
  decide equality;
    try apply Req_dec_T; try apply Z.eq_dec; try apply string_dec.
  - decide equality; apply Req_dec_T.
  - decide equality; apply Req_dec_T.
  - decide equality; apply Req_dec_T.
Qed.

Section Store.

Variable impact_id : string.

Let keep (i : Impact.t) : bool := negb (Impact.id i =? impact_id)%string.
Let hit (i : Impact.t) : bool := (Impact.id i =? impact_id)%string.

Lemma load_impacts_stored (fs : file_state) :
  load_impacts fs = (Returns (stored fs), fs).
Proof. destruct fs; reflexivity. Qed.

Lemma filter_same_length {A : Type} (f : A -> bool) (l : list A) :
  List.length (filter f l) = List.length l -> filter f l = l.
Proof.
  induction l as [| x l IH]; simpl; intros Hlen.
  - reflexivity.
  - destruct (f x); simpl in Hlen.
    + f_equal. apply IH. lia.
    + pose proof (filter_length_le f l). lia.
Qed.

Lemma filter_split_length {A : Type} (f : A -> bool) (l : list A) :
  (List.length (filter (fun x => negb (f x)) l)
   + List.length (filter f l) = List.length l)%nat.
Proof.
  induction l as [| x l IH]; simpl.
  - reflexivity.
  - destruct (f x); simpl; lia.
Qed.

Lemma filter_none {A : Type} (f : A -> bool) (l : list A) :
  (forall x, In x l -> f x = false) -> filter f l = [].
Proof.
  induction l as [| x l IH]; simpl; intros Hall.
  - reflexivity.
  - rewrite (Hall x (or_introl eq_refl)). apply IH.
    intros y Hy. apply Hall. now right.
Qed.

(** What [delete_impact] leaves in the file, read back by [load_impacts]. *)
Lemma delete_impact_stored (fs : file_state) :
  stored (snd (delete_impact impact_id fs)) = filter keep (stored fs).
Proof.
  unfold delete_impact, bind. rewrite load_impacts_stored.
  fold keep.
  destruct (Nat.eqb _ _) eqn:Hlen; simpl.
  - apply Nat.eqb_eq in Hlen. symmetry. now apply filter_same_length.
  - reflexivity.
Qed.

Lemma unique_id_hit_once (l : list Impact.t) :
  NoDup (map Impact.id l) -> (List.length (filter hit l) <= 1)%nat.
Proof.
  induction l as [| x l IH]; simpl; intros Hnd.
  - lia.
  - inversion Hnd as [| ? ? Hnotin Hnd']; subst.
    destruct (hit x) eqn:Hx.
    + rewrite filter_none; [simpl; lia |].
      intros y Hy. unfold hit in *.
      apply String.eqb_eq in Hx.
      apply String.eqb_neq. intros Heq. apply Hnotin.
      rewrite Hx, <- Heq. now apply in_map.
    + now apply IH.
Qed.

End Store.

(** C6 (amended): [delete_impact] removes every record whose id is the given
    one, so the list read back is shorter by the number of such records; it is
    shorter by at most one when the stored ids are pairwise distinct. *)
Theorem delete_impact_removes_all_matching (impact_id : string) (fs : file_state) :
  let after := stored (snd (delete_impact impact_id fs)) in
  let matching := filter (fun i => (Impact.id i =? impact_id)%string) (stored fs) in
  fst (load_impacts (snd (delete_impact impact_id fs))) = Returns after /\
  after = filter (fun i => negb (Impact.id i =? impact_id)%string) (stored fs) /\
  (List.length after + List.length matching = List.length (stored fs))%nat /\
  (NoDup (map Impact.id (stored fs)) ->
   (List.length (stored fs) <= List.length after + 1)%nat).
Proof.
  intros after matching. subst after matching.
  rewrite load_impacts_stored, delete_impact_stored. simpl.
  pose proof (filter_split_length
                (fun i => (Impact.id i =? impact_id)%string) (stored fs)) as Hsplit.
  repeat split; try assumption.
  intros Hnd. pose proof (unique_id_hit_once impact_id _ Hnd). lia.
Qed.

Lemma delete_impact_removes_all_matching_witness :
  (List.length (stored distinct_id_file)
   <= List.length (stored (snd (delete_impact "sim_12345" distinct_id_file))) + 1)%nat.
Proof.
  apply (delete_impact_removes_all_matching "sim_12345" distinct_id_file).
  simpl. repeat constructor; simpl; intuition discriminate.
Defined.

(** C6 (as stated) fails: with two records sharing the id, one call removes
    both, and the list read back is shorter by two. *)
Lemma delete_impact_shared_id_removes_two :
  delete_impact "sim_12345" shared_id_file
  = (Returns (Response 200 "message" "Impact sim_12345 deleted"), Holds []) /\
  load_impacts (Holds []) = (Returns [], Holds []) /\
  List.length (stored shared_id_file) = 2%nat /\
  ~ (List.length (stored shared_id_file)
     <= List.length (stored (snd (delete_impact "sim_12345" shared_id_file))) + 1)%nat.
Proof.
  repeat split; try reflexivity.
  simpl. lia.
Qed.

(** C7: deleting an id that no stored record has answers 404 and leaves the
    file as it was, so [load_impacts] reads the same list afterwards. *)
Theorem delete_impact_absent_id (impact_id : string) (fs : file_state) :
  (forall i, In i (stored fs) -> Impact.id i <> impact_id) ->
  delete_impact impact_id fs
  = (Returns (Response 404 "error" "Impact not found"), fs) /\
  load_impacts (snd (delete_impact impact_id fs)) = (Returns (stored fs), fs).
Proof.
  intros Habsent.
  assert (Hdel : delete_impact impact_id fs
                 = (Returns (Response 404 "error" "Impact not found"), fs)).
  { unfold delete_impact, bind. rewrite load_impacts_stored.
    replace (filter _ (stored fs)) with (stored fs).
    - now rewrite Nat.eqb_refl.
    - symmetry. apply filter_same_length. f_equal.
      apply forallb_filter_id. apply forallb_forall. intros i Hi.
      apply negb_true_iff, String.eqb_neq. now apply Habsent. }
  split; [exact Hdel |].
  rewrite Hdel. apply load_impacts_stored.
Qed.

Lemma delete_impact_absent_id_witness :
  delete_impact "sim_99999" distinct_id_file
  = (Returns (Response 404 "error" "Impact not found"), distinct_id_file) /\
  load_impacts (snd (delete_impact "sim_99999" distinct_id_file))
  = (Returns (stored distinct_id_file), distinct_id_file).
Proof.
  apply (delete_impact_absent_id "sim_99999" distinct_id_file).
  simpl. intros i [Hi | [Hi | []]]; subst i; simpl; discriminate.
Defined.

(** C8 (amended): [save_impact e] followed by [load_impacts] reads the prior
    records followed by [e], so [e] occurs once more than before, and exactly
    once when it was not stored already; [delete_impact] on the id of [e]
    then succeeds, and the list read back does not contain [e]. *)
Theorem save_load_delete_round_trip (e : Impact.t) (fs : file_state) :
  let fs1 := snd (save_impact e fs) in
  let fs2 := snd (delete_impact (Impact.id e) fs1) in
  save_impact e fs = (Returns tt, Holds (stored fs ++ [e])) /\
  load_impacts fs1 = (Returns (stored fs ++ [e]), fs1) /\
  count_occ impact_eq_dec (stored fs1) e
  = S (count_occ impact_eq_dec (stored fs) e) /\
  (~ In e (stored fs) -> count_occ impact_eq_dec (stored fs1) e = 1%nat) /\
  fst (delete_impact (Impact.id e) fs1)
  = Returns (Response 200 "message" ("Impact " ++ Impact.id e ++ " deleted")) /\
  fst (load_impacts fs2) = Returns (stored fs2) /\
  ~ In e (stored fs2).
Proof.
  intros fs1 fs2.
  assert (Hsave : save_impact e fs = (Returns tt, Holds (stored fs ++ [e]))).
  { unfold save_impact, bind. now rewrite load_impacts_stored. }
  assert (Hfs1 : fs1 = Holds (stored fs ++ [e])) by (subst fs1; now rewrite Hsave).
  assert (Hcount : count_occ impact_eq_dec (stored fs1) e
                   = S (count_occ impact_eq_dec (stored fs) e)).
  { rewrite Hfs1. simpl. rewrite count_occ_app. simpl.
    destruct (impact_eq_dec e e) as [_ | Hne]; [lia | now elim Hne]. }
  split; [exact Hsave |].
  split; [rewrite Hfs1; reflexivity |].
  split; [exact Hcount |].
  split.
  { intros Hfresh. rewrite Hcount. f_equal.
    now apply count_occ_not_In. }
  split.
  { rewrite Hfs1. unfold delete_impact, bind. simpl.
    destruct (Nat.eqb _ _) eqn:Hlen; [| reflexivity].
    apply Nat.eqb_eq in Hlen.
    rewrite filter_app, !length_app in Hlen. simpl in Hlen.
    rewrite String.eqb_refl in Hlen. simpl in Hlen.
    pose proof (filter_length_le
                  (fun i => negb (Impact.id i =? Impact.id e)%string) (stored fs)).
    lia. }
  split; [now rewrite load_impacts_stored |].
  subst fs2. rewrite delete_impact_stored.
  intros Hin. apply filter_In in Hin. destruct Hin as [_ Hkeep].
  now rewrite String.eqb_refl in Hkeep.
Qed.

Lemma save_load_delete_round_trip_witness :
  count_occ impact_eq_dec
    (stored (snd (save_impact (sample_impact 70) distinct_id_file)))
    (sample_impact 70) = 1%nat.
Proof.
  apply (save_load_delete_round_trip (sample_impact 70) distinct_id_file).
  simpl. intros [H | [H | []]].
  - apply (f_equal Impact.diameter_m) in H. simpl in H. lra.
  - discriminate H.
Defined.

(** C8 (as stated) fails: when the record is stored already, the list read
    back after [save_impact] contains it twice. *)
Lemma save_impact_twice_stored :
  load_impacts (snd (save_impact (sample_impact 50) (Holds [sample_impact 50])))
  = (Returns [sample_impact 50; sample_impact 50],
     Holds [sample_impact 50; sample_impact 50]) /\
  count_occ impact_eq_dec
    (stored (snd (save_impact (sample_impact 50) (Holds [sample_impact 50]))))
    (sample_impact 50) = 2%nat.
Proof.
  split; [reflexivity |].
  change (stored _) with [sample_impact 50; sample_impact 50].
  now rewrite !count_occ_cons_eq by reflexivity.
Qed.

(** ** Numeric groundwork *)

(** Six digits of [PI], from the Machin-like series of the library. *)
Lemma PI_bounds : 3.14159 < PI < 3.1416.
Proof.
  destruct (PI_2_3_7_ineq 3) as [lo hi].
  unfold PI_2_3_7_tg, tg_alt, Ratan_seq in lo, hi.
  cbn [sum_f_R0 Nat.mul Nat.add pow INR] in lo, hi.
  split; lra.
Qed.

Lemma rint_floor_or_next (x : R) :
  rint x = Zfloor x \/ rint x = (Zfloor x + 1)%Z.
Proof.
  unfold rint.
  destruct (total_order_T _ _) as [[_ | _] | _]; auto.
  destruct (Z.even _); auto.
Qed.

(** [rint] is within one half of its argument, and is the only integer
    strictly that close. *)
Lemma rint_near (x : R) : IZR (rint x) - 1 / 2 <= x <= IZR (rint x) + 1 / 2.
Proof.
  pose proof (Zfloor_bound x) as [Hlo Hhi].
  unfold rint.
  destruct (total_order_T _ _) as [[Hlt | Heq] | Hgt].
  - lra.
  - destruct (Z.even _); [| rewrite plus_IZR]; lra.
  - rewrite plus_IZR. lra.
Qed.

Lemma rint_unique (x : R) (n : Z) :
  IZR n - 1 / 2 < x < IZR n + 1 / 2 -> rint x = n.
Proof.
  intros [Hlo Hhi].
  pose proof (rint_near x) as [Hlo' Hhi'].
  assert (H1 : IZR (rint x) < IZR n + 1) by lra.
  assert (H2 : IZR n < IZR (rint x) + 1) by lra.
  rewrite <- plus_IZR in H1, H2.
  apply lt_IZR in H1, H2. lia.
Qed.

Lemma rint_IZR (n : Z) : rint (IZR n) = n.
Proof. apply rint_unique. lra. Qed.

Lemma rint_nonneg (x : R) : 0 <= x -> (0 <= rint x)%Z.
Proof.
  intros Hx.
  assert (0 <= Zfloor x)%Z by (apply Zfloor_lub; simpl; lra).
  destruct (rint_floor_or_next x) as [-> | ->]; lia.
Qed.

Lemma pow10_pos (k : nat) : 0 < 10 ^ k.
Proof. apply pow_lt. lra. Qed.

Lemma py_round_nonneg (x : R) (k : nat) : 0 <= x -> 0 <= py_round x k.
Proof.
  intros Hx. unfold py_round.
  pose proof (pow10_pos k) as Hk.
  apply Rmult_le_pos.
  - apply IZR_le. apply rint_nonneg. now apply Rmult_le_pos; [| apply Rlt_le].
  - apply Rlt_le. now apply Rinv_0_lt_compat.
Qed.

Lemma py_round_zero (k : nat) : py_round 0 k = 0.
Proof.
  unfold py_round. rewrite Rmult_0_l.
  change 0 with (IZR 0) at 1. rewrite rint_IZR.
  unfold Rdiv. apply Rmult_0_l.
Qed.

(** A float within half a unit in the last place of [n / 10^k] rounds to it. *)
Lemma py_round_unique (x : R) (k : nat) (n : Z) :
  IZR n - 1 / 2 < x * 10 ^ k < IZR n + 1 / 2 -> py_round x k = IZR n / 10 ^ k.
Proof.
  intros H. unfold py_round. now rewrite (rint_unique _ n).
Qed.

Lemma py_int_nonneg (x : R) : 0 <= x -> py_int x = Zfloor x.
Proof. intros Hx. unfold py_int. destruct (Rle_dec 0 x); [reflexivity | contradiction]. Qed.

Lemma py_int_nonpos (x : R) : x <= 0 -> py_int x = Zceil x.
Proof.
  intros Hx. unfold py_int. destruct (Rle_dec 0 x) as [H0 |]; [| reflexivity].
  assert (x = 0) by lra. subst x.
  unfold Zceil. rewrite Ropp_0. change 0 with (IZR 0).
  now rewrite ZfloorZ.
Qed.

(** ** Logarithm bounds by integer powers *)

Lemma ln_10_pos : 0 < ln 10.
Proof. rewrite <- ln_1. apply ln_increasing; lra. Qed.

Lemma ln_monotone (x y : R) : 0 < x -> x <= y -> ln x <= ln y.
Proof.
  intros Hx [Hlt | ->]; [| apply Rle_refl].
  apply Rlt_le. now apply ln_increasing.
Qed.

Lemma IZR_pow10 (p : Z) : (0 <= p)%Z -> IZR (10 ^ p) = 10 ^ Z.to_nat p.
Proof. intros Hp. rewrite pow_IZR, Z2Nat.id by assumption. reflexivity. Qed.

Lemma ln_pow_Z (x : R) (q : Z) :
  0 < x -> (0 <= q)%Z -> ln (x ^ Z.to_nat q) = IZR q * ln x.
Proof.
  intros Hx Hq. rewrite ln_pow by assumption.
  now rewrite INR_IZR_INZ, Z2Nat.id.
Qed.

(** [p / q <= log10 x] follows from [10^p <= c^q] for an integer [c <= x]. *)
Lemma log10_lower (x : R) (c p q : Z) :
  (0 < q)%Z -> (0 <= p)%Z -> (0 < c)%Z -> IZR c <= x ->
  (10 ^ p <= c ^ q)%Z ->
  IZR p / IZR q <= ln x / ln 10.
Proof.
  intros Hq Hp Hc Hcx Hpow.
  pose proof ln_10_pos as H10.
  assert (Hc' : 0 < IZR c) by now apply IZR_lt.
  assert (Hq' : 0 < IZR q) by now apply IZR_lt.
  apply IZR_le in Hpow.
  rewrite IZR_pow10 in Hpow by assumption.
  rewrite <- (Z2Nat.id q), <- pow_IZR in Hpow by lia.
  assert (Hln : ln (10 ^ Z.to_nat p) <= ln (IZR c ^ Z.to_nat q)).
  { apply ln_monotone; [apply pow_lt; lra | exact Hpow]. }
  rewrite !ln_pow_Z in Hln by (lra || lia).
  assert (Hlnx : ln (IZR c) <= ln x) by (apply ln_monotone; lra).
  apply (Rmult_le_reg_r (IZR q * ln 10)); [now apply Rmult_lt_0_compat |].
  replace (IZR p / IZR q * (IZR q * ln 10)) with (IZR p * ln 10) by (field; lra).
  replace (ln x / ln 10 * (IZR q * ln 10)) with (IZR q * ln x) by (field; lra).
  apply Rle_trans with (1 := Hln).
  apply Rmult_le_compat_l; lra.
Qed.

(** [log10 x <= p / q] follows from [c^q <= 10^p] for an integer [c >= x]. *)
Lemma log10_upper (x : R) (c p q : Z) :
  (0 < q)%Z -> (0 <= p)%Z -> 0 < x -> x <= IZR c ->
  (c ^ q <= 10 ^ p)%Z ->
  ln x / ln 10 <= IZR p / IZR q.
Proof.
  intros Hq Hp Hx Hxc Hpow.
  pose proof ln_10_pos as H10.
  assert (Hc' : 0 < IZR c) by lra.
  assert (Hq' : 0 < IZR q) by now apply IZR_lt.
  apply IZR_le in Hpow.
  rewrite IZR_pow10 in Hpow by assumption.
  rewrite <- (Z2Nat.id q), <- pow_IZR in Hpow by lia.
  assert (Hln : ln (IZR c ^ Z.to_nat q) <= ln (10 ^ Z.to_nat p)).
  { apply ln_monotone; [apply pow_lt; lra | exact Hpow]. }
  rewrite !ln_pow_Z in Hln by (lra || lia).
  assert (Hlnx : ln x <= ln (IZR c)) by (apply ln_monotone; lra).
  apply (Rmult_le_reg_r (IZR q * ln 10)); [now apply Rmult_lt_0_compat |].
  replace (IZR p / IZR q * (IZR q * ln 10)) with (IZR p * ln 10) by (field; lra).
  replace (ln x / ln 10 * (IZR q * ln 10)) with (IZR q * ln x) by (field; lra).
  apply Rle_trans with (2 := Hln).
  apply Rmult_le_compat_l; lra.
Qed.

(** ** Hazard calculations *)

(** Positivity of a product of positive factors and powers. *)
Ltac positive_product :=
  repeat match goal with
         | |- 0 < _ * _ => apply Rmult_lt_0_compat
         | |- 0 < _ ^ _ => apply pow_lt
         end;
  try lra.

Lemma asteroid_kinetic_energy_closed (d v rho : R) :
  asteroid_kinetic_energy d v rho
  = PI * rho * d ^ 3 * v ^ 2 * (10 ^ 6 / (12 * 4.184e15)).
Proof. unfold asteroid_kinetic_energy. cbv zeta. lra. Qed.

Lemma float_pow_pos (x y : R) : 0 < x -> float_pow x y = Real (Rpower x y).
Proof.
  intros Hx. unfold float_pow.
  destruct (total_order_T x 0) as [[Hlt | Heq] | Hgt]; try lra. reflexivity.
Qed.

Lemma float_pow_zero (y : R) : float_pow 0 y = Real 0.
Proof.
  unfold float_pow.
  destruct (total_order_T 0 0) as [[Hlt | Heq] | Hgt]; try lra. reflexivity.
Qed.

Lemma float_pow_neg (x y : R) :
  x < 0 ->
  float_pow x y
  = Complex (Rpower (- x) y * cos (PI * y)) (Rpower (- x) y * sin (PI * y)).
Proof.
  intros Hx. unfold float_pow.
  destruct (total_order_T x 0) as [[Hlt | Heq] | Hgt]; try lra. reflexivity.
Qed.

Lemma Rpower_pos (x y : R) : 0 < Rpower x y.
Proof. unfold Rpower. apply exp_pos. Qed.

Lemma cube_of_third_power (x : R) : 0 < x -> Rpower x (1 / 3) ^ 3 = x.
Proof.
  intros Hx.
  rewrite <- Rpower_pow by apply Rpower_pos.
  rewrite Rpower_mult.
  replace (1 / 3 * INR 3) with 1 by (simpl; field).
  now apply Rpower_1.
Qed.

Lemma third_power_of_cube (x : R) : 0 < x -> Rpower (x ^ 3) (1 / 3) = x.
Proof.
  intros Hx.
  rewrite <- Rpower_pow by assumption.
  rewrite Rpower_mult.
  replace (INR 3 * (1 / 3)) with 1 by (simpl; field).
  now apply Rpower_1.
Qed.

Lemma sqrt3_pos : 0 < sqrt 3.
Proof. apply sqrt_lt_R0. lra. Qed.

Lemma impact_radius_km_pos (m : R) :
  0 < m -> impact_radius_km m = Real (1.5 * Rpower m (1 / 3)).
Proof. intros Hm. unfold impact_radius_km. now rewrite float_pow_pos. Qed.

Lemma impact_radius_km_zero : impact_radius_km 0 = Real 0.
Proof.
  unfold impact_radius_km. rewrite float_pow_zero. simpl. f_equal. lra.
Qed.

Lemma impact_radius_km_neg (m : R) :
  m < 0 ->
  impact_radius_km m
  = Complex (0.75 * Rpower (- m) (1 / 3)) (0.75 * sqrt 3 * Rpower (- m) (1 / 3)).
Proof.
  intros Hm. unfold impact_radius_km. rewrite float_pow_neg by assumption.
  replace (PI * (1 / 3)) with (PI / 3) by lra.
  rewrite cos_PI3, sin_PI3. simpl. f_equal; lra.
Qed.

Lemma impact_radius_km_nonneg (m : R) :
  0 <= m -> exists r, impact_radius_km m = Real r /\ 0 <= r.
Proof.
  intros [Hm | <-].
  - exists (1.5 * Rpower m (1 / 3)). split; [now apply impact_radius_km_pos |].
    pose proof (Rpower_pos m (1 / 3)). lra.
  - exists 0. split; [apply impact_radius_km_zero | lra].
Qed.

(** C1: for positive diameter, velocity and density,
    [asteroid_kinetic_energy] returns one half of density times the volume of
    the sphere times the squared velocity in m/s, divided by 4.184e15, and the
    result is positive; for a 10 km body at 20 km/s and density 3000 it lies
    between 7.5e7 and 7.6e7 megatons, within one order of magnitude of
    1.0e8. *)
Theorem asteroid_kinetic_energy_formula :
  (forall diameter_m velocity_km_s density : R,
      0 < diameter_m -> 0 < velocity_km_s -> 0 < density ->
      asteroid_kinetic_energy diameter_m velocity_km_s density
      = 1 / 2 * density * (4 / 3 * PI * (diameter_m / 2) ^ 3)
        * (velocity_km_s * 1000) ^ 2 / 4.184e15
      /\ 0 < asteroid_kinetic_energy diameter_m velocity_km_s density) /\
  7.5e7 < asteroid_kinetic_energy 10000 20 default_density < 7.6e7 /\
  1.0e8 / 10 < asteroid_kinetic_energy 10000 20 default_density < 1.0e8 * 10.
Proof.
  split.
  - intros d v rho Hd Hv Hrho. split.
    + unfold asteroid_kinetic_energy. cbv zeta. lra.
    + rewrite asteroid_kinetic_energy_closed.
      pose proof PI_RGT_0. positive_product.
  - pose proof PI_bounds as [Hlo Hhi].
    rewrite asteroid_kinetic_energy_closed. unfold default_density.
    split; split; lra.
Qed.

Lemma asteroid_kinetic_energy_formula_witness :
  asteroid_kinetic_energy 10000 20 3000
  = 1 / 2 * 3000 * (4 / 3 * PI * (10000 / 2) ^ 3) * (20 * 1000) ^ 2 / 4.184e15
  /\ 0 < asteroid_kinetic_energy 10000 20 3000.
Proof.
  apply (proj1 asteroid_kinetic_energy_formula 10000 20 3000); lra.
Defined.

Lemma population_affected_real (dens r : R) :
  population_affected dens (Real r) = Returns (py_int (PI * r ^ 2 * dens)).
Proof.
  unfold population_affected, pynum_sqr, pynum_scale, py_int_num.
  replace (dens * (PI * r ^ 2)) with (PI * r ^ 2 * dens) by lra.
  reflexivity.
Qed.

(** C2 (amended): for positive megatons [impact_radius_km] is 1.5 times the
    cube root; at zero it is 0; for negative megatons it is a complex number
    with a positive imaginary part, not 0; and it is non-decreasing over the
    non-negative inputs. *)
Theorem impact_radius_km_by_sign :
  (forall megatons, 0 < megatons ->
     impact_radius_km megatons = Real (1.5 * Rpower megatons (1 / 3)) /\
     Rpower megatons (1 / 3) ^ 3 = megatons) /\
  impact_radius_km 0 = Real 0 /\
  (forall megatons, megatons < 0 ->
     impact_radius_km megatons
     = Complex (0.75 * Rpower (- megatons) (1 / 3))
               (0.75 * sqrt 3 * Rpower (- megatons) (1 / 3)) /\
     0 < 0.75 * sqrt 3 * Rpower (- megatons) (1 / 3) /\
     impact_radius_km megatons <> Real 0) /\
  (forall a b, 0 <= a -> a <= b ->
     exists ra rb,
       impact_radius_km a = Real ra /\ impact_radius_km b = Real rb /\ ra <= rb).
Proof.
  split; [| split; [| split]].
  - intros m Hm. split.
    + now apply impact_radius_km_pos.
    + now apply cube_of_third_power.
  - apply impact_radius_km_zero.
  - intros m Hm. rewrite impact_radius_km_neg by assumption.
    split; [reflexivity |]. split; [| discriminate].
    pose proof sqrt3_pos. pose proof (Rpower_pos (- m) (1 / 3)).
    positive_product.
  - intros a b [Ha | <-] Hab.
    + exists (1.5 * Rpower a (1 / 3)), (1.5 * Rpower b (1 / 3)).
      rewrite !impact_radius_km_pos by lra.
      repeat split.
      apply Rmult_le_compat_l; [lra |].
      apply Rle_Rpower_l; lra.
    + destruct (impact_radius_km_nonneg b Hab) as [rb [Hb Hrb]].
      exists 0, rb. now rewrite impact_radius_km_zero.
Qed.

Lemma impact_radius_km_by_sign_witness :
  impact_radius_km 8 = Real (1.5 * Rpower 8 (1 / 3)) /\ Rpower 8 (1 / 3) ^ 3 = 8.
Proof.
  apply (proj1 impact_radius_km_by_sign 8). lra.
Defined.

(** C2 (as stated) fails below zero: [impact_radius_km (-8)] is the complex
    number [1.5 + 1.5 * sqrt 3 * i], not 0. *)
Lemma impact_radius_km_negative_is_complex :
  impact_radius_km (- 8) = Complex 1.5 (1.5 * sqrt 3) /\
  impact_radius_km (- 8) <> Real 0.
Proof.
  assert (H : impact_radius_km (- 8) = Complex 1.5 (1.5 * sqrt 3)).
  { rewrite impact_radius_km_neg by lra.
    replace (- - 8) with (2 ^ 3) by lra.
    rewrite third_power_of_cube by lra.
    f_equal; lra. }
  split; [exact H |]. rewrite H. discriminate.
Qed.

(** C5: for non-negative density and radius [population_affected] returns
    the floor of [pi * radius^2 * density], which is non-negative; for density
    1000 and radius 10 it returns 314159. *)
Theorem population_affected_floor :
  (forall pop_density_per_km2 radius_km : R,
      0 <= pop_density_per_km2 -> 0 <= radius_km ->
      population_affected pop_density_per_km2 (Real radius_km)
      = Returns (Zfloor (PI * radius_km ^ 2 * pop_density_per_km2)) /\
      (0 <= Zfloor (PI * radius_km ^ 2 * pop_density_per_km2))%Z) /\
  population_affected 1000 (Real 10) = Returns 314159%Z.
Proof.
  assert (Hgen : forall dens r, 0 <= dens -> 0 <= r ->
                 population_affected dens (Real r)
                 = Returns (Zfloor (PI * r ^ 2 * dens)) /\
                 (0 <= Zfloor (PI * r ^ 2 * dens))%Z).
  { intros dens r Hdens Hr.
    assert (Hx : 0 <= PI * r ^ 2 * dens).
    { pose proof PI_RGT_0. pose proof (pow2_ge_0 r).
      apply Rmult_le_pos; [apply Rmult_le_pos |]; lra. }
    rewrite population_affected_real, py_int_nonneg by assumption.
    split; [reflexivity |]. apply Zfloor_lub. exact Hx. }
  split; [exact Hgen |].
  destruct (Hgen 1000 10) as [-> _]; try lra.
  f_equal. apply Zfloor_eq.
  pose proof PI_bounds. split; lra.
Qed.

Lemma population_affected_floor_witness :
  population_affected 1000 (Real 10)
  = Returns (Zfloor (PI * 10 ^ 2 * 1000)) /\
  (0 <= Zfloor (PI * 10 ^ 2 * 1000))%Z.
Proof.
  apply (proj1 population_affected_floor 1000 10); lra.
Defined.

(** C4 (amended): the hazard functions validate nothing.  For a diameter or
    velocity that is not positive [asteroid_kinetic_energy] returns the value
    of the same formula: 0 when either is 0, and at most 0 for a non-positive
    diameter and a non-negative density.  For a negative population density
    and a real radius [population_affected] returns the product truncated
    toward zero, which is at most 0. *)
Theorem hazard_functions_do_not_validate :
  (forall diameter_m velocity_km_s density : R,
      diameter_m <= 0 \/ velocity_km_s <= 0 ->
      asteroid_kinetic_energy diameter_m velocity_km_s density
      = 1 / 2 * density * (4 / 3 * PI * (diameter_m / 2) ^ 3)
        * (velocity_km_s * 1000) ^ 2 / 4.184e15 /\
      (diameter_m = 0 \/ velocity_km_s = 0 ->
       asteroid_kinetic_energy diameter_m velocity_km_s density = 0) /\
      (diameter_m <= 0 -> 0 <= density ->
       asteroid_kinetic_energy diameter_m velocity_km_s density <= 0)) /\
  (forall pop_density_per_km2 radius_km : R,
      pop_density_per_km2 < 0 ->
      population_affected pop_density_per_km2 (Real radius_km)
      = Returns (Zceil (PI * radius_km ^ 2 * pop_density_per_km2)) /\
      (Zceil (PI * radius_km ^ 2 * pop_density_per_km2) <= 0)%Z).
Proof.
  split.
  - intros d v rho _. split; [| split].
    + unfold asteroid_kinetic_energy. cbv zeta. lra.
    + rewrite asteroid_kinetic_energy_closed. intros [-> | ->]; lra.
    + intros Hd Hrho. rewrite asteroid_kinetic_energy_closed.
      pose proof PI_RGT_0 as Hpi.
      assert (Hd3 : d ^ 3 <= 0).
      { replace (d ^ 3) with (d * d ^ 2) by lra. pose proof (pow2_ge_0 d). nra. }
      pose proof (pow2_ge_0 v) as Hv2.
      assert (Hprod : PI * rho * d ^ 3 * v ^ 2 <= 0).
      { assert (0 <= PI * rho) by (apply Rmult_le_pos; lra).
        assert (PI * rho * d ^ 3 <= 0) by nra. nra. }
      assert (0 < 10 ^ 6 / (12 * 4.184e15)) by lra. nra.
  - intros dens r Hdens.
    assert (Hx : PI * r ^ 2 * dens <= 0).
    { pose proof PI_RGT_0. pose proof (pow2_ge_0 r).
      assert (0 <= PI * r ^ 2) by (apply Rmult_le_pos; lra). nra. }
    rewrite population_affected_real, py_int_nonpos by assumption.
    split; [reflexivity |].
    pose proof (Zceil_bound (PI * r ^ 2 * dens)) as [Hlo _].
    assert (IZR (Zceil (PI * r ^ 2 * dens)) < 0 + 1) by lra.
    rewrite <- plus_IZR in H. apply lt_IZR in H. lia.
Qed.

Lemma hazard_functions_do_not_validate_witness :
  (asteroid_kinetic_energy (- 10) 20 3000
   = 1 / 2 * 3000 * (4 / 3 * PI * (- 10 / 2) ^ 3) * (20 * 1000) ^ 2 / 4.184e15 /\
   (- 10 = 0 \/ 20 = 0 -> asteroid_kinetic_energy (- 10) 20 3000 = 0) /\
   (- 10 <= 0 -> 0 <= 3000 -> asteroid_kinetic_energy (- 10) 20 3000 <= 0)) /\
  (population_affected (- 1) (Real 10) = Returns (Zceil (PI * 10 ^ 2 * - 1)) /\
   (Zceil (PI * 10 ^ 2 * - 1) <= 0)%Z).
Proof.
  split.
  - apply (proj1 hazard_functions_do_not_validate (- 10) 20 3000). left. lra.
  - apply (proj2 hazard_functions_do_not_validate (- 1) 10). lra.
Defined.

(** C4 (as stated) fails: non-positive diameters and velocities and a
    negative population density all yield ordinary numbers. *)
Lemma non_positive_inputs_return_numbers :
  asteroid_kinetic_energy 0 20 default_density = 0 /\
  asteroid_kinetic_energy 50 0 default_density = 0 /\
  asteroid_kinetic_energy (- 10) 20 default_density < 0 /\
  population_affected (- 1) (Real 10) = Returns (- 314)%Z.
Proof.
  rewrite !asteroid_kinetic_energy_closed. unfold default_density.
  pose proof PI_bounds as [Hlo Hhi].
  repeat split; try lra.
  rewrite population_affected_real, py_int_nonpos by lra.
  f_equal. apply Zceil_eq. split; lra.
Qed.


Lemma np_log10_pos (x : R) : 0 < x -> np_log10 x = Finite (ln x / ln 10).
Proof.
  intros Hx. unfold np_log10.
  destruct (total_order_T x 0) as [[Hlt | Heq] | Hgt]; try lra. reflexivity.
Qed.

Lemma np_log10_zero : np_log10 0 = NegInf.
Proof.
  unfold np_log10.
  destruct (total_order_T 0 0) as [[Hlt | Heq] | Hgt]; try lra. reflexivity.
Qed.

Lemma np_log10_neg (x : R) : x < 0 -> np_log10 x = NaN.
Proof.
  intros Hx. unfold np_log10.
  destruct (total_order_T x 0) as [[Hlt | Heq] | Hgt]; try lra. reflexivity.
Qed.

Lemma py_max0_finite (x : R) : py_max0 (Finite x) = Rmax 0 x.
Proof.
  unfold py_max0, Rmax.
  destruct (Rlt_dec 0 x), (Rle_dec 0 x); lra.
Qed.

Lemma py_max0_nonneg (v : npfloat) : 0 <= py_max0 v.
Proof.
  destruct v as [x | |]; simpl; try lra.
  destruct (Rlt_dec 0 x); lra.
Qed.

Lemma impact_earthquake_magnitude_pos (m : R) :
  0 < m ->
  impact_earthquake_magnitude m = py_round (spec_earthquake_magnitude m) 1.
Proof.
  intros Hm. unfold impact_earthquake_magnitude, spec_earthquake_magnitude.
  cbv zeta. rewrite np_log10_pos by lra.
  unfold npfloat_scale, npfloat_sub. now rewrite py_max0_finite.
Qed.

Lemma impact_earthquake_magnitude_nonpos (m : R) :
  m <= 0 -> impact_earthquake_magnitude m = 0.
Proof.
  intros [Hm | ->]; unfold impact_earthquake_magnitude; cbv zeta.
  - rewrite np_log10_neg by lra. simpl. apply py_round_zero.
  - rewrite Rmult_0_l, np_log10_zero. simpl. apply py_round_zero.
Qed.

(** C3 (amended): [impact_earthquake_magnitude] is never negative.  For
    positive megatons it is the clamped magnitude rounded to one decimal
    place.  For megatons at or below zero the logarithm is still taken, and
    gives [-inf] or [nan]; [max(0, _)] turns either into 0. *)
Theorem impact_earthquake_magnitude_rounds_to_one_decimal (megatons : R) :
  0 <= impact_earthquake_magnitude megatons /\
  (0 < megatons ->
   impact_earthquake_magnitude megatons
   = py_round (spec_earthquake_magnitude megatons) 1) /\
  (megatons = 0 ->
   np_log10 (megatons * 4.184e15) = NegInf /\
   impact_earthquake_magnitude megatons = 0) /\
  (megatons < 0 ->
   np_log10 (megatons * 4.184e15) = NaN /\
   impact_earthquake_magnitude megatons = 0).
Proof.
  split; [| split; [| split]].
  - unfold impact_earthquake_magnitude. cbv zeta.
    apply py_round_nonneg, py_max0_nonneg.
  - apply impact_earthquake_magnitude_pos.
  - intros ->. split.
    + rewrite Rmult_0_l. apply np_log10_zero.
    + apply impact_earthquake_magnitude_nonpos. lra.
  - intros Hm. split.
    + apply np_log10_neg. lra.
    + apply impact_earthquake_magnitude_nonpos. lra.
Qed.

Lemma impact_earthquake_magnitude_rounds_to_one_decimal_witness :
  impact_earthquake_magnitude 1000 = py_round (spec_earthquake_magnitude 1000) 1.
Proof.
  apply (impact_earthquake_magnitude_rounds_to_one_decimal 1000). lra.
Defined.

(** [log10] of the joules in 1000 megatons. *)
Lemma log10_of_4184e15 :
  18.6 <= ln (1000 * 4.184e15) / ln 10 <= 18.64.
Proof.
  split.
  - replace 18.6 with (IZR 186 / IZR 10) by lra.
    apply (log10_lower _ (4184 * 10 ^ 15)); [lia | lia | lia | |].
    + rewrite mult_IZR, IZR_pow10 by lia. simpl. lra.
    + apply Z.leb_le. vm_compute. reflexivity.
  - replace 18.64 with (IZR 1864 / IZR 100) by lra.
    apply (log10_upper _ (4184 * 10 ^ 15)); [lia | lia | lra | |].
    + rewrite mult_IZR, IZR_pow10 by lia. simpl. lra.
    + apply Z.leb_le. vm_compute. reflexivity.
Qed.

(** C3 (as stated) fails: at 1000 megatons the function returns 1.8, while
    the clamped magnitude itself is below 1.8. *)
Lemma impact_earthquake_magnitude_is_rounded :
  impact_earthquake_magnitude 1000 = 1.8 /\
  spec_earthquake_magnitude 1000 < 1.8.
Proof.
  pose proof log10_of_4184e15 as [Hlo Hhi].
  assert (Hspec : spec_earthquake_magnitude 1000
                  = 0.67 * (ln (1000 * 4.184e15) / ln 10) - 10.7).
  { unfold spec_earthquake_magnitude. apply Rmax_right. lra. }
  split.
  - rewrite impact_earthquake_magnitude_pos by lra.
    rewrite (py_round_unique _ 1 18); [simpl; lra |].
    rewrite Hspec. simpl. lra.
  - rewrite Hspec. lra.
Qed.

(** ** The simulate operation *)

Section Simulate.

Variables (data : Request.t) (rnd : Z) (fs : file_state).

Let diameter := get (Request.diameter_m data) 50.
Let velocity := get (Request.velocity_km_s data) 20.
Let pop_density := get (Request.pop_density_per_km2 data) 1000.
Let energy_mt := asteroid_kinetic_energy diameter velocity default_density.

(** A negative energy gives a complex radius, on which [int] raises. *)
Lemma simulate_impact_negative_energy :
  energy_mt < 0 ->
  simulate_impact data rnd fs = (Raises (TypeError IntOfComplex), fs).
Proof.
  intros Hneg. unfold simulate_impact. cbv zeta.
  fold diameter velocity pop_density. fold energy_mt.
  rewrite (impact_radius_km_neg energy_mt Hneg).
  reflexivity.
Qed.

(** Otherwise the hazard calculations succeed and the coordinates are
    rounded next. *)
Lemma simulate_impact_real_radius (radius_km : R) :
  impact_radius_km energy_mt = Real radius_km ->
  simulate_impact data rnd fs
  = (name_lat <- lift (py_round_opt (Request.latitude data) 2) ;;
     name_lon <- lift (py_round_opt (Request.longitude data) 2) ;;
     let result :=
       {| Impact.id := ("sim_" ++ NilZero.string_of_int (Z.to_int rnd))%string;
          Impact.name := (name_lat, name_lon);
          Impact.latitude := Request.latitude data;
          Impact.longitude := Request.longitude data;
          Impact.diameter_m := diameter;
          Impact.velocity_km_s := velocity;
          Impact.energy_megatons := py_round energy_mt 2;
          Impact.impact_radius_km := py_round radius_km 2;
          Impact.population_affected := py_int (PI * radius_km ^ 2 * pop_density);
          Impact.earthquake_magnitude := impact_earthquake_magnitude energy_mt |} in
     save_impact result ;;
     ret result) fs.
Proof.
  intros Hr. unfold simulate_impact. cbv zeta.
  fold diameter velocity pop_density. fold energy_mt.
  rewrite Hr, population_affected_real.
  reflexivity.
Qed.

(** With both coordinates present the record is built, appended to the
    file and returned. *)
Lemma simulate_impact_with_coordinates (radius_km lat lon : R) :
  impact_radius_km energy_mt = Real radius_km ->
  Request.latitude data = Some lat ->
  Request.longitude data = Some lon ->
  exists ev,
    simulate_impact data rnd fs = (Returns ev, Holds (stored fs ++ [ev])) /\
    Impact.energy_megatons ev = py_round energy_mt 2 /\
    Impact.impact_radius_km ev = py_round radius_km 2 /\
    Impact.population_affected ev = py_int (PI * radius_km ^ 2 * pop_density) /\
    Impact.earthquake_magnitude ev = impact_earthquake_magnitude energy_mt.
Proof.
  intros Hr Hlat Hlon. eexists. split.
  - rewrite (simulate_impact_real_radius radius_km Hr).
    unfold bind, lift. rewrite Hlat, Hlon. simpl.
    unfold save_impact, bind. rewrite load_impacts_stored.
    reflexivity.
  - simpl. repeat split.
Qed.

(** A request returns a record only under these conditions. *)
Lemma simulate_impact_returns_only_if (ev : Impact.t) (fs' : file_state) :
  simulate_impact data rnd fs = (Returns ev, fs') ->
  exists radius_km lat lon,
    impact_radius_km energy_mt = Real radius_km /\
    Request.latitude data = Some lat /\
    Request.longitude data = Some lon.
Proof.
  intros Hsim.
  destruct (Rlt_dec energy_mt 0) as [Hneg | Hpos].
  - rewrite (simulate_impact_negative_energy Hneg) in Hsim. discriminate.
  - destruct (impact_radius_km_nonneg energy_mt) as [r [Hr _]]; [lra |].
    rewrite (simulate_impact_real_radius r Hr) in Hsim.
    unfold bind, lift in Hsim.
    destruct (Request.latitude data) as [lat |]; [| discriminate].
    destruct (Request.longitude data) as [lon |]; [| discriminate].
    now exists r, lat, lon.
Qed.

End Simulate.

(** C10 (amended): a simulate request without latitude or longitude fails
    with a [TypeError] and leaves the impact file as it was, [save_impact]
    not being reached.  The error comes from rounding the missing coordinate
    for the name when the energy is not negative, and from [int] on the
    complex radius, before the name is formatted, when the energy is
    negative. *)
Theorem simulate_impact_without_coordinates
  (data : Request.t) (rnd : Z) (fs : file_state) :
  Request.latitude data = None \/ Request.longitude data = None ->
  let energy_mt :=
    asteroid_kinetic_energy (get (Request.diameter_m data) 50)
      (get (Request.velocity_km_s data) 20) default_density in
  exists what,
    simulate_impact data rnd fs = (Raises (TypeError what), fs) /\
    (0 <= energy_mt -> what = RoundOfNone) /\
    (energy_mt < 0 -> what = IntOfComplex).
Proof.
  intros Hnone energy_mt.
  destruct (Rlt_dec energy_mt 0) as [Hneg | Hpos].
  - exists IntOfComplex. split; [| split]; [| lra | reflexivity].
    now apply simulate_impact_negative_energy.
  - exists RoundOfNone. split; [| split]; [| reflexivity | lra].
    destruct (impact_radius_km_nonneg energy_mt) as [r [Hr _]]; [lra |].
    rewrite (simulate_impact_real_radius data rnd fs r Hr).
    unfold bind, lift.
    destruct Hnone as [-> | Hlon]; [reflexivity |].
    rewrite Hlon. destruct (Request.latitude data); reflexivity.
Qed.

Lemma simulate_impact_without_coordinates_witness :
  exists what,
    simulate_impact empty_request 12345 distinct_id_file
    = (Raises (TypeError what), distinct_id_file) /\
    (0 <= asteroid_kinetic_energy 50 20 default_density -> what = RoundOfNone) /\
    (asteroid_kinetic_energy 50 20 default_density < 0 -> what = IntOfComplex).
Proof.
  apply (simulate_impact_without_coordinates empty_request 12345 distinct_id_file).
  left. reflexivity.
Defined.

(** C10 (as stated) fails for the body [{"diameter_m": -10}]: the request
    fails in [population_affected], before the name is formatted. *)
Lemma simulate_impact_fails_before_name :
  Request.latitude negative_diameter_request = None /\
  simulate_impact negative_diameter_request 12345 distinct_id_file
  = (Raises (TypeError IntOfComplex), distinct_id_file) /\
  simulate_impact negative_diameter_request 12345 distinct_id_file
  <> (Raises (TypeError RoundOfNone), distinct_id_file).
Proof.
  assert (H : simulate_impact negative_diameter_request 12345 distinct_id_file
              = (Raises (TypeError IntOfComplex), distinct_id_file)).
  { apply simulate_impact_negative_energy. simpl.
    rewrite asteroid_kinetic_energy_closed. unfold default_density.
    pose proof PI_RGT_0. lra. }
  split; [reflexivity |]. split; [exact H |].
  rewrite H. discriminate.
Qed.

(** C9 (amended): in every record that [simulate_impact] returns,
    [energy_megatons] and [impact_radius_km] are the energy and the radius
    rounded to two decimal places, [population_affected] is the truncation of
    [pi * radius^2 * density] for the unrounded radius, and
    [earthquake_magnitude] is what [impact_earthquake_magnitude] returned, the
    clamped magnitude rounded to one decimal place, with no further
    rounding. *)
Theorem simulate_impact_payload
  (data : Request.t) (rnd : Z) (fs fs' : file_state) (ev : Impact.t) :
  simulate_impact data rnd fs = (Returns ev, fs') ->
  let pop_density := get (Request.pop_density_per_km2 data) 1000 in
  let energy_mt :=
    asteroid_kinetic_energy (get (Request.diameter_m data) 50)
      (get (Request.velocity_km_s data) 20) default_density in
  exists radius_km,
    impact_radius_km energy_mt = Real radius_km /\
    Impact.energy_megatons ev = py_round energy_mt 2 /\
    Impact.impact_radius_km ev = py_round radius_km 2 /\
    Impact.population_affected ev = py_int (PI * radius_km ^ 2 * pop_density) /\
    Impact.earthquake_magnitude ev = impact_earthquake_magnitude energy_mt /\
    (0 < energy_mt ->
     Impact.earthquake_magnitude ev
     = py_round (spec_earthquake_magnitude energy_mt) 1) /\
    (energy_mt <= 0 -> Impact.earthquake_magnitude ev = 0) /\
    fs' = Holds (stored fs ++ [ev]).
Proof.
  intros Hsim pop_density energy_mt.
  destruct (simulate_impact_returns_only_if data rnd fs ev fs' Hsim)
    as (r & lat & lon & Hr & Hlat & Hlon).
  destruct (simulate_impact_with_coordinates data rnd fs r lat lon Hr Hlat Hlon)
    as (ev' & Hsim' & Henergy & Hradius & Hpop & Hmag).
  rewrite Hsim in Hsim'. injection Hsim' as Hev Hfs. subst ev'.
  exists r. repeat split; try assumption.
  - intros Hpos. rewrite Hmag. now apply impact_earthquake_magnitude_pos.
  - intros Hnonpos. rewrite Hmag. now apply impact_earthquake_magnitude_nonpos.
Qed.

Lemma default_energy_pos : 0 < asteroid_kinetic_energy 50 20 default_density.
Proof.
  rewrite asteroid_kinetic_energy_closed. unfold default_density.
  pose proof PI_RGT_0. lra.
Qed.

(** The default request returns a record. *)
Lemma simulate_default_request :
  exists ev,
    simulate_impact default_request 12345 Missing = (Returns ev, Holds [ev]) /\
    Impact.earthquake_magnitude ev
    = impact_earthquake_magnitude (asteroid_kinetic_energy 50 20 default_density).
Proof.
  destruct (impact_radius_km_nonneg (asteroid_kinetic_energy 50 20 default_density))
    as [r [Hr _]]; [apply Rlt_le, default_energy_pos |].
  destruct (simulate_impact_with_coordinates default_request 12345 Missing r 0 0)
    as (ev & Hsim & _ & _ & _ & Hmag); try reflexivity; [exact Hr |].
  exists ev. split; [exact Hsim | exact Hmag].
Qed.

Lemma simulate_impact_payload_witness :
  exists ev radius_km,
    simulate_impact default_request 12345 Missing = (Returns ev, Holds [ev]) /\
    impact_radius_km (asteroid_kinetic_energy 50 20 default_density)
    = Real radius_km /\
    Impact.energy_megatons ev
    = py_round (asteroid_kinetic_energy 50 20 default_density) 2 /\
    Impact.impact_radius_km ev = py_round radius_km 2 /\
    Impact.population_affected ev = py_int (PI * radius_km ^ 2 * 1000).
Proof.
  destruct simulate_default_request as (ev & Hsim & _).
  destruct (simulate_impact_payload default_request 12345 Missing (Holds [ev]) ev Hsim)
    as (r & Hr & Henergy & Hradius & Hpop & _).
  exists ev, r. repeat split; assumption.
Defined.

(** The default asteroid releases [1.25e16 * pi] joules. *)
Lemma default_energy_joules :
  asteroid_kinetic_energy 50 20 default_density * 4.184e15 = 1.25e16 * PI.
Proof. rewrite asteroid_kinetic_energy_closed. unfold default_density. lra. Qed.

Lemma log10_of_default_energy :
  16.59 <= ln (asteroid_kinetic_energy 50 20 default_density * 4.184e15) / ln 10
        <= 16.6.
Proof.
  rewrite default_energy_joules. pose proof PI_bounds as [Hlo Hhi].
  split.
  - replace 16.59 with (IZR 1659 / IZR 100) by lra.
    apply (log10_lower _ (39269875 * 10 ^ 9)); [lia | lia | lia | |].
    + rewrite mult_IZR, IZR_pow10 by lia. simpl. lra.
    + apply Z.leb_le. vm_compute. reflexivity.
  - replace 16.6 with (IZR 166 / IZR 10) by lra.
    apply (log10_upper _ (3927 * 10 ^ 13)); [lia | lia | lra | |].
    + rewrite mult_IZR, IZR_pow10 by lia. simpl. lra.
    + apply Z.leb_le. vm_compute. reflexivity.
Qed.

(** C9 (as stated) fails for the magnitude: the default request returns a
    record whose [earthquake_magnitude] is 0.4, while the clamped magnitude
    rounded to two decimal places is 0.42. *)
Lemma simulate_impact_magnitude_has_one_decimal :
  exists ev,
    simulate_impact default_request 12345 Missing = (Returns ev, Holds [ev]) /\
    Impact.earthquake_magnitude ev = 0.4 /\
    py_round (spec_earthquake_magnitude
                (asteroid_kinetic_energy 50 20 default_density)) 2 = 0.42.
Proof.
  pose proof log10_of_default_energy as [Hlo Hhi].
  pose proof default_energy_pos as Henergy.
  assert (Hspec : spec_earthquake_magnitude
                    (asteroid_kinetic_energy 50 20 default_density)
                  = 0.67 * (ln (asteroid_kinetic_energy 50 20 default_density
                                * 4.184e15) / ln 10) - 10.7).
  { unfold spec_earthquake_magnitude. apply Rmax_right. lra. }
  destruct simulate_default_request as (ev & Hsim & Hmag).
  exists ev. split; [exact Hsim |]. split.
  - rewrite Hmag, impact_earthquake_magnitude_pos by exact Henergy.
    rewrite (py_round_unique _ 1 4); [simpl; lra |].
    rewrite Hspec. simpl. lra.
  - rewrite (py_round_unique _ 2 42); [simpl; lra |].
    rewrite Hspec. simpl. lra.
Qed.

(** * Further properties *)

(** ** The impact store, continued *)

Lemma save_impact_result (e : Impact.t) (fs : file_state) :
  save_impact e fs = (Returns tt, Holds (stored fs ++ [e])).
Proof. unfold save_impact, bind. now rewrite load_impacts_stored. Qed.

Lemma delete_impact_found (impact_id : string) (fs : file_state) :
  (exists i, In i (stored fs) /\ Impact.id i = impact_id) ->
  delete_impact impact_id fs
  = (Returns (Response 200 "message" ("Impact " ++ impact_id ++ " deleted")),
     Holds (filter (fun i => negb (Impact.id i =? impact_id)%string) (stored fs))).
Proof.
  intros (i & Hin & Hid).
  unfold delete_impact, bind. rewrite load_impacts_stored.
  destruct (Nat.eqb _ _) eqn:Hlen; [exfalso | reflexivity].
  apply Nat.eqb_eq, filter_same_length in Hlen.
  rewrite <- Hlen in Hin. apply filter_In in Hin as [_ Hkeep].
  rewrite Hid, String.eqb_refl in Hkeep. discriminate.
Qed.

Lemma delete_impact_not_found (impact_id : string) (fs : file_state) :
  (forall i, In i (stored fs) -> Impact.id i <> impact_id) ->
  delete_impact impact_id fs
  = (Returns (Response 404 "error" "Impact not found"), fs).
Proof.
  intros Habsent.
  unfold delete_impact, bind. rewrite load_impacts_stored.
  replace (filter _ (stored fs)) with (stored fs).
  - now rewrite Nat.eqb_refl.
  - symmetry. apply forallb_filter_id. apply forallb_forall. intros i Hi.
    apply negb_true_iff, String.eqb_neq. now apply Habsent.
Qed.

Lemma filter_swap {A : Type} (f g : A -> bool) (l : list A) :
  filter f (filter g l) = filter g (filter f l).
Proof.
  induction l as [| x l IH]; simpl; [reflexivity |].
  destruct (f x) eqn:Hf, (g x) eqn:Hg; simpl; rewrite ?Hf, ?Hg, IH; reflexivity.
Qed.

(** X11: saving the records of a list one after another leaves the prior
    records followed by the list, in order; after at least one save the file
    holds a list even if it was missing or unparseable before, whose former
    content is then gone. *)
Theorem save_impact_sequence (l : list Impact.t) (fs : file_state) :
  let final := fold_left (fun f e => snd (save_impact e f)) l fs in
  stored final = stored fs ++ l /\
  (l <> [] -> final = Holds (stored fs ++ l)).
Proof.
  revert fs. induction l as [| e l IH]; intros fs; simpl.
  - split; [now rewrite app_nil_r | intros H; now elim H].
  - rewrite save_impact_result. simpl.
    destruct (IH (Holds (stored fs ++ [e]))) as [Hstored Hfile].
    simpl in Hstored, Hfile. rewrite <- app_assoc in Hstored, Hfile. simpl in *.
    split; [exact Hstored | intros _].
    destruct l as [| e' l']; [reflexivity |].
    apply Hfile. discriminate.
Qed.

Lemma save_impact_sequence_witness :
  fold_left (fun f e => snd (save_impact e f)) [sample_impact 50; other_impact]
    Unparseable
  = Holds (stored Unparseable ++ [sample_impact 50; other_impact]).
Proof.
  apply (save_impact_sequence [sample_impact 50; other_impact] Unparseable).
  discriminate.
Defined.

(** X12: when some stored record has the id, [delete_impact] answers 200
    with the deletion message and rewrites the file with the records of other
    ids; the list is strictly shorter and no record with the id remains. *)
Theorem delete_impact_present_id
  (impact_id : string) (fs : file_state) (i : Impact.t) :
  In i (stored fs) -> Impact.id i = impact_id ->
  delete_impact impact_id fs
  = (Returns (Response 200 "message" ("Impact " ++ impact_id ++ " deleted")),
     Holds (filter (fun j => negb (Impact.id j =? impact_id)%string) (stored fs))) /\
  (List.length (stored (snd (delete_impact impact_id fs)))
   < List.length (stored fs))%nat /\
  (forall j, In j (stored (snd (delete_impact impact_id fs))) ->
             Impact.id j <> impact_id).
Proof.
  intros Hin Hid.
  assert (Hdel := delete_impact_found impact_id fs (ex_intro _ i (conj Hin Hid))).
  rewrite Hdel. simpl. split; [reflexivity |]. split.
  - clear Hdel. induction (stored fs) as [| x l IH]; [destruct Hin |].
    simpl. destruct Hin as [-> | Hin].
    + rewrite Hid, String.eqb_refl. simpl.
      pose proof (filter_length_le
                    (fun j => negb (Impact.id j =? impact_id)%string) l). lia.
    + specialize (IH Hin). destruct (negb _); simpl; lia.
  - intros j Hj. apply filter_In in Hj as [_ Hkeep].
    apply negb_true_iff in Hkeep. now apply String.eqb_neq.
Qed.

Lemma delete_impact_present_id_witness :
  delete_impact "sim_54321" distinct_id_file
  = (Returns (Response 200 "message" ("Impact " ++ "sim_54321" ++ " deleted")),
     Holds (filter (fun j => negb (Impact.id j =? "sim_54321")%string)
              (stored distinct_id_file))) /\
  (List.length (stored (snd (delete_impact "sim_54321" distinct_id_file)))
   < List.length (stored distinct_id_file))%nat /\
  (forall j, In j (stored (snd (delete_impact "sim_54321" distinct_id_file))) ->
             Impact.id j <> "sim_54321"%string).
Proof.
  apply (delete_impact_present_id "sim_54321" distinct_id_file other_impact).
  - simpl. right. left. reflexivity.
  - reflexivity.
Defined.

(** X13: deleting the same id a second time always answers 404 and leaves
    the file as the first deletion left it. *)
Theorem delete_impact_twice (impact_id : string) (fs : file_state) :
  let fs1 := snd (delete_impact impact_id fs) in
  delete_impact impact_id fs1
  = (Returns (Response 404 "error" "Impact not found"), fs1).
Proof.
  intros fs1. apply delete_impact_not_found.
  intros i Hi. subst fs1. rewrite delete_impact_stored in Hi.
  apply filter_In in Hi as [_ Hkeep].
  apply negb_true_iff in Hkeep. now apply String.eqb_neq.
Qed.

(** X14: two deletions leave the same records whichever comes first. *)
Theorem delete_impact_commutes (id1 id2 : string) (fs : file_state) :
  stored (snd (delete_impact id2 (snd (delete_impact id1 fs))))
  = stored (snd (delete_impact id1 (snd (delete_impact id2 fs)))).
Proof.
  rewrite !delete_impact_stored. apply filter_swap.
Qed.



(** X16: saving a record whose id no stored record has and deleting that id
    again answers 200 and leaves a file holding exactly the prior records. *)
Theorem save_then_delete_restores (e : Impact.t) (fs : file_state) :
  (forall i, In i (stored fs) -> Impact.id i <> Impact.id e) ->
  delete_impact (Impact.id e) (snd (save_impact e fs))
  = (Returns (Response 200 "message" ("Impact " ++ Impact.id e ++ " deleted")),
     Holds (stored fs)).
Proof.
  intros Hfresh. rewrite save_impact_result. simpl.
  rewrite delete_impact_found.
  - simpl. rewrite filter_app. simpl. rewrite String.eqb_refl. simpl.
    rewrite app_nil_r. do 2 f_equal.
    apply forallb_filter_id, forallb_forall. intros i Hi.
    apply negb_true_iff, String.eqb_neq. now apply Hfresh.
  - exists e. split; [| reflexivity]. simpl. apply in_or_app. right. now left.
Qed.

Lemma save_then_delete_restores_witness :
  delete_impact (Impact.id other_impact)
    (snd (save_impact other_impact (Holds [sample_impact 50])))
  = (Returns (Response 200 "message"
                ("Impact " ++ Impact.id other_impact ++ " deleted")),
     Holds (stored (Holds [sample_impact 50]))).
Proof.
  apply (save_then_delete_restores other_impact (Holds [sample_impact 50])).
  simpl. intros i [<- | []]. discriminate.
Defined.

(** ** The hazard calculations, continued *)

Lemma cube_increasing (a b : R) : 0 <= a -> a < b -> a ^ 3 < b ^ 3.
Proof.
  intros Ha Hab.
  assert (Hsq : a ^ 2 < b ^ 2) by nra.
  replace (a ^ 3) with (a * a ^ 2) by ring.
  replace (b ^ 3) with (b * b ^ 2) by ring.
  pose proof (pow2_ge_0 a). nra.
Qed.

Lemma square_pos (x : R) : x <> 0 -> 0 < x ^ 2.
Proof.
  intros Hx. replace (x ^ 2) with (x * x) by ring.
  destruct (Rtotal_order x 0) as [Hlt | [Heq | Hgt]]; [nra | contradiction | nra].
Qed.

(** X1: for a positive density the energy is strictly increasing in the
    diameter at a fixed positive velocity, and strictly increasing in the
    velocity at a fixed positive diameter. *)
Theorem asteroid_kinetic_energy_increasing (density : R) :
  0 < density ->
  (forall d1 d2 v, 0 < v -> 0 < d1 -> d1 < d2 ->
     asteroid_kinetic_energy d1 v density < asteroid_kinetic_energy d2 v density) /\
  (forall d v1 v2, 0 < d -> 0 < v1 -> v1 < v2 ->
     asteroid_kinetic_energy d v1 density < asteroid_kinetic_energy d v2 density).
Proof.
  intros Hrho. pose proof PI_RGT_0 as Hpi.
  assert (Hc : 0 < 10 ^ 6 / (12 * 4.184e15)) by lra.
  assert (Hpr : 0 < PI * density) by now apply Rmult_lt_0_compat.
  split.
  - intros d1 d2 v Hv Hd1 Hd. rewrite !asteroid_kinetic_energy_closed.
    apply Rmult_lt_compat_r; [exact Hc |].
    apply Rmult_lt_compat_r; [apply pow_lt; exact Hv |].
    apply Rmult_lt_compat_l; [exact Hpr |].
    apply cube_increasing; lra.
  - intros d v1 v2 Hd Hv1 Hv. rewrite !asteroid_kinetic_energy_closed.
    apply Rmult_lt_compat_r; [exact Hc |].
    apply Rmult_lt_compat_l.
    + apply Rmult_lt_0_compat; [exact Hpr | now apply pow_lt].
    + nra.
Qed.

Lemma asteroid_kinetic_energy_increasing_witness :
  asteroid_kinetic_energy 50 20 3000 < asteroid_kinetic_energy 60 20 3000.
Proof.
  apply (proj1 (asteroid_kinetic_energy_increasing 3000 ltac:(lra))); lra.
Defined.

(** X2: the energy scales with the cube of the diameter, with the square of
    the velocity and linearly with the density, for every real factor; so the
    sign of the velocity does not matter. *)
Theorem asteroid_kinetic_energy_scaling (k diameter_m velocity_km_s density : R) :
  asteroid_kinetic_energy (k * diameter_m) velocity_km_s density
  = k ^ 3 * asteroid_kinetic_energy diameter_m velocity_km_s density /\
  asteroid_kinetic_energy diameter_m (k * velocity_km_s) density
  = k ^ 2 * asteroid_kinetic_energy diameter_m velocity_km_s density /\
  asteroid_kinetic_energy diameter_m velocity_km_s (k * density)
  = k * asteroid_kinetic_energy diameter_m velocity_km_s density /\
  asteroid_kinetic_energy diameter_m (- velocity_km_s) density
  = asteroid_kinetic_energy diameter_m velocity_km_s density.
Proof.
  rewrite !asteroid_kinetic_energy_closed. repeat split; ring.
Qed.

Lemma third_power_scale (k x : R) :
  0 < k -> 0 < x -> Rpower (k ^ 3 * x) (1 / 3) = k * Rpower x (1 / 3).
Proof.
  intros Hk Hx.
  rewrite <- Rpower_mult_distr by (try assumption; now apply pow_lt).
  now rewrite third_power_of_cube.
Qed.

(** Multiplying the energy by [k^3] multiplies the radius by [k], also for
    the complex radius of a negative energy. *)
Lemma impact_radius_km_scale (k megatons : R) :
  0 < k ->
  impact_radius_km (k ^ 3 * megatons) = pynum_scale k (impact_radius_km megatons).
Proof.
  intros Hk. assert (Hk3 : 0 < k ^ 3) by now apply pow_lt.
  destruct (total_order_T megatons 0) as [[Hneg | ->] | Hpos].
  - assert (k ^ 3 * megatons < 0) by nra.
    rewrite !impact_radius_km_neg by assumption.
    replace (- (k ^ 3 * megatons)) with (k ^ 3 * - megatons) by ring.
    rewrite third_power_scale by lra.
    simpl. f_equal; ring.
  - rewrite Rmult_0_r, impact_radius_km_zero. simpl. f_equal. ring.
  - assert (0 < k ^ 3 * megatons) by now apply Rmult_lt_0_compat.
    rewrite !impact_radius_km_pos by assumption.
    rewrite third_power_scale by assumption.
    simpl. f_equal. ring.
Qed.

(** X3: over the non-negative energies the radius is a non-negative real
    number and strictly increasing. *)
Theorem impact_radius_km_strictly_increasing (a b : R) :
  0 <= a -> a < b ->
  exists ra rb,
    impact_radius_km a = Real ra /\ impact_radius_km b = Real rb /\
    0 <= ra /\ ra < rb.
Proof.
  intros [Ha | <-] Hab.
  - exists (1.5 * Rpower a (1 / 3)), (1.5 * Rpower b (1 / 3)).
    rewrite !impact_radius_km_pos by lra.
    pose proof (Rpower_pos a (1 / 3)).
    repeat split; try lra.
    apply Rmult_lt_compat_l; [lra |].
    apply Rlt_Rpower_l; lra.
  - exists 0, (1.5 * Rpower b (1 / 3)).
    rewrite impact_radius_km_zero, impact_radius_km_pos by lra.
    pose proof (Rpower_pos b (1 / 3)).
    repeat split; lra.
Qed.

Lemma impact_radius_km_strictly_increasing_witness :
  exists ra rb,
    impact_radius_km 1 = Real ra /\ impact_radius_km 8 = Real rb /\
    0 <= ra /\ ra < rb.
Proof. apply (impact_radius_km_strictly_increasing 1 8); lra. Defined.

(** X4: the impact radius of an asteroid is proportional to its diameter:
    a diameter [k] times as large, for a positive [k], gives a radius [k]
    times as large, whatever the velocity and the density. *)
Theorem radius_proportional_to_diameter
  (k diameter_m velocity_km_s density : R) :
  0 < k ->
  impact_radius_km (asteroid_kinetic_energy (k * diameter_m) velocity_km_s density)
  = pynum_scale k
      (impact_radius_km (asteroid_kinetic_energy diameter_m velocity_km_s density)).
Proof.
  intros Hk.
  replace (asteroid_kinetic_energy (k * diameter_m) velocity_km_s density)
    with (k ^ 3 * asteroid_kinetic_energy diameter_m velocity_km_s density)
    by (rewrite !asteroid_kinetic_energy_closed; ring).
  now apply impact_radius_km_scale.
Qed.

Lemma radius_proportional_to_diameter_witness :
  impact_radius_km (asteroid_kinetic_energy (2 * 50) 20 3000)
  = pynum_scale 2 (impact_radius_km (asteroid_kinetic_energy 50 20 3000)).
Proof. apply (radius_proportional_to_diameter 2 50 20 3000). lra. Defined.

Lemma py_int_opp (x : R) : py_int (- x) = (- py_int x)%Z.
Proof.
  destruct (Rle_dec 0 x) as [Hpos | Hneg].
  - rewrite py_int_nonpos, py_int_nonneg by lra.
    unfold Zceil. now rewrite Ropp_involutive.
  - rewrite py_int_nonneg, (py_int_nonpos x) by lra.
    unfold Zceil. lia.
Qed.

(** [int] drops the fractional part: the result lies between zero and the
    argument, less than one away from it. *)
Lemma py_int_truncates (x : R) :
  (0 <= x -> 0 <= IZR (py_int x) <= x /\ x < IZR (py_int x) + 1) /\
  (x <= 0 -> x <= IZR (py_int x) <= 0 /\ IZR (py_int x) - 1 < x).
Proof.
  split; intros Hx.
  - rewrite py_int_nonneg by assumption.
    pose proof (Zfloor_bound x) as [Hlo Hhi].
    assert (0 <= Zfloor x)%Z by (apply Zfloor_lub; simpl; lra).
    apply IZR_le in H. lra.
  - rewrite py_int_nonpos by assumption.
    pose proof (Zceil_bound x) as [Hlo Hhi].
    assert (Hlt : IZR (Zceil x) < 0 + 1) by lra.
    rewrite <- plus_IZR in Hlt. apply lt_IZR in Hlt.
    assert (Hle : (Zceil x <= 0)%Z) by lia.
    apply IZR_le in Hle. lra.
Qed.

(** X5: for a real radius and any density, [population_affected] returns
    the product [pi * radius^2 * density] with its fractional part dropped:
    an integer no larger in absolute value than the product, less than one
    away from it, and of the sign of the density. *)
Theorem population_affected_truncates (pop_density_per_km2 radius_km : R) :
  let x := PI * radius_km ^ 2 * pop_density_per_km2 in
  exists n,
    population_affected pop_density_per_km2 (Real radius_km) = Returns n /\
    Rabs (IZR n) <= Rabs x /\
    Rabs (x - IZR n) < 1 /\
    (0 <= pop_density_per_km2 -> (0 <= n)%Z) /\
    (pop_density_per_km2 <= 0 -> (n <= 0)%Z).
Proof.
  intros x. exists (py_int x).
  split; [apply population_affected_real |].
  assert (Harea : 0 <= PI * radius_km ^ 2).
  { pose proof PI_RGT_0. pose proof (pow2_ge_0 radius_km).
    apply Rmult_le_pos; lra. }
  destruct (py_int_truncates x) as [Hpos Hneg].
  destruct (Rle_dec 0 x) as [Hx | Hx].
  - destruct (Hpos Hx) as [[H0 H1] H2].
    rewrite !Rabs_pos_eq by lra.
    split; [lra |]. split; [lra |]. split.
    + intros _. now apply le_IZR.
    + intros Hd. assert (x = 0) by (unfold x in *; nra).
      apply le_IZR. lra.
  - assert (Hx' : x <= 0) by lra.
    destruct (Hneg Hx') as [[H0 H1] H2].
    rewrite (Rabs_left1 (IZR _)), (Rabs_left1 x), (Rabs_left1 (x - _)) by lra.
    split; [lra |]. split; [lra |]. split.
    + intros Hd. assert (0 <= x) by (unfold x; nra). lra.
    + intros _. now apply le_IZR.
Qed.

Lemma population_affected_truncates_witness :
  exists n,
    population_affected 1000 (Real 10) = Returns n /\ (0 <= n)%Z.
Proof.
  destruct (population_affected_truncates 1000 10) as (n & Hn & _ & _ & Hpos & _).
  exists n. split; [exact Hn |]. apply Hpos. lra.
Defined.

(** X6: [population_affected] accepts a negative radius and returns what it
    returns for the opposite radius; for the opposite density it returns the
    opposite integer. *)
Theorem population_affected_symmetries (pop_density_per_km2 radius_km : R) :
  exists n,
    population_affected pop_density_per_km2 (Real radius_km) = Returns n /\
    population_affected pop_density_per_km2 (Real (- radius_km)) = Returns n /\
    population_affected (- pop_density_per_km2) (Real radius_km)
    = Returns (- n)%Z.
Proof.
  exists (py_int (PI * radius_km ^ 2 * pop_density_per_km2)).
  rewrite !population_affected_real. repeat split.
  - do 2 f_equal. ring.
  - rewrite <- py_int_opp. do 2 f_equal. ring.
Qed.

Lemma Zfloor_quadruple (x : R) :
  (4 * Zfloor x <= Zfloor (4 * x) <= 4 * Zfloor x + 3)%Z.
Proof.
  pose proof (Zfloor_bound x) as [Hlo Hhi].
  pose proof (Zfloor_bound (4 * x)) as [Hlo4 Hhi4].
  split.
  - apply Zfloor_lub. rewrite mult_IZR. lra.
  - assert (H : IZR (Zfloor (4 * x)) < IZR (4 * Zfloor x + 4)).
    { rewrite plus_IZR, mult_IZR. lra. }
    apply lt_IZR in H. lia.
Qed.

(** X7: for a non-negative density, doubling the radius multiplies the
    affected population by four, up to the truncation: the new count lies
    between four times the old one and that plus three. *)
Theorem population_affected_double_radius (pop_density_per_km2 radius_km : R) :
  0 <= pop_density_per_km2 ->
  exists n n4,
    population_affected pop_density_per_km2 (Real radius_km) = Returns n /\
    population_affected pop_density_per_km2 (Real (2 * radius_km)) = Returns n4 /\
    (4 * n <= n4 <= 4 * n + 3)%Z.
Proof.
  intros Hd.
  assert (Hx : 0 <= PI * radius_km ^ 2 * pop_density_per_km2).
  { pose proof PI_RGT_0. pose proof (pow2_ge_0 radius_km).
    apply Rmult_le_pos; [apply Rmult_le_pos |]; lra. }
  exists (Zfloor (PI * radius_km ^ 2 * pop_density_per_km2)),
         (Zfloor (4 * (PI * radius_km ^ 2 * pop_density_per_km2))).
  rewrite !population_affected_real.
  replace (PI * (2 * radius_km) ^ 2 * pop_density_per_km2)
    with (4 * (PI * radius_km ^ 2 * pop_density_per_km2)) by ring.
  rewrite !py_int_nonneg by lra.
  repeat split; apply Zfloor_quadruple.
Qed.

Lemma population_affected_double_radius_witness :
  exists n n4,
    population_affected 1000 (Real 10) = Returns n /\
    population_affected 1000 (Real (2 * 10)) = Returns n4 /\
    (4 * n <= n4 <= 4 * n + 3)%Z.
Proof. apply (population_affected_double_radius 1000 10). lra. Defined.

(** ** Rounding *)

Lemma rint_monotone (x y : R) : x <= y -> (rint x <= rint y)%Z.
Proof.
  intros Hxy.
  destruct (Z_le_gt_dec (rint x) (rint y)) as [Hle | Hgt]; [exact Hle | exfalso].
  pose proof (rint_near x) as [Hx _].
  pose proof (rint_near y) as [_ Hy].
  assert (Hstep : IZR (rint y) + 1 <= IZR (rint x)).
  { rewrite <- plus_IZR. apply IZR_le. lia. }
  assert (Heq : x = y) by lra.
  subst y. lia.
Qed.

Lemma py_round_monotone (x y : R) (k : nat) :
  x <= y -> py_round x k <= py_round y k.
Proof.
  intros Hxy. unfold py_round. pose proof (pow10_pos k) as Hk.
  apply Rmult_le_compat_r; [apply Rlt_le, Rinv_0_lt_compat, Hk |].
  apply IZR_le, rint_monotone.
  apply Rmult_le_compat_r; lra.
Qed.

(** [round(x, k)] is within half a unit of the [k]-th decimal of [x]. *)
Lemma py_round_near (x : R) (k : nat) :
  Rabs (py_round x k - x) <= / (2 * 10 ^ k).
Proof.
  unfold py_round. pose proof (pow10_pos k) as Hk.
  pose proof (rint_near (x * 10 ^ k)) as [Hlo Hhi].
  set (n := IZR (rint (x * 10 ^ k))) in *.
  replace (n / 10 ^ k - x) with ((n - x * 10 ^ k) / 10 ^ k) by (field; lra).
  replace (/ (2 * 10 ^ k)) with (1 / 2 / 10 ^ k) by (field; lra).
  unfold Rdiv at 1. rewrite Rabs_mult, (Rabs_pos_eq (/ _)).
  - apply Rmult_le_compat_r; [apply Rlt_le, Rinv_0_lt_compat, Hk |].
    apply Rabs_le. lra.
  - apply Rlt_le, Rinv_0_lt_compat, Hk.
Qed.

(** Rounding an integer changes nothing. *)
Lemma py_round_integer (n : Z) (k : nat) : py_round (IZR n) k = IZR n.
Proof.
  unfold py_round. pose proof (pow10_pos k) as Hk.
  replace (IZR n * 10 ^ k) with (IZR (n * 10 ^ Z.of_nat k)).
  - rewrite rint_IZR, mult_IZR, <- pow_IZR. field. lra.
  - now rewrite mult_IZR, <- pow_IZR.
Qed.

Lemma spec_earthquake_magnitude_monotone (a b : R) :
  0 < a -> a <= b -> spec_earthquake_magnitude a <= spec_earthquake_magnitude b.
Proof.
  intros Ha Hab. unfold spec_earthquake_magnitude.
  pose proof ln_10_pos as H10.
  assert (Hln : ln (a * 4.184e15) <= ln (b * 4.184e15)).
  { apply ln_monotone; lra. }
  assert (Hdiv : ln (a * 4.184e15) / ln 10 <= ln (b * 4.184e15) / ln 10).
  { apply Rmult_le_compat_r; [apply Rlt_le, Rinv_0_lt_compat, H10 | exact Hln]. }
  apply Rle_max_compat_l. lra.
Qed.

Lemma magnitude_nonneg (m : R) : 0 <= impact_earthquake_magnitude m.
Proof.
  unfold impact_earthquake_magnitude. cbv zeta.
  apply py_round_nonneg, py_max0_nonneg.
Qed.

(** X8: the magnitude is non-decreasing in the energy over all real
    inputs. *)
Theorem impact_earthquake_magnitude_monotone (a b : R) :
  a <= b -> impact_earthquake_magnitude a <= impact_earthquake_magnitude b.
Proof.
  intros Hab.
  destruct (Rle_dec a 0) as [Ha | Ha].
  - rewrite (impact_earthquake_magnitude_nonpos a Ha). apply magnitude_nonneg.
  - rewrite !impact_earthquake_magnitude_pos by lra.
    apply py_round_monotone, spec_earthquake_magnitude_monotone; lra.
Qed.

Lemma impact_earthquake_magnitude_monotone_witness :
  impact_earthquake_magnitude 1 <= impact_earthquake_magnitude 1000.
Proof. apply (impact_earthquake_magnitude_monotone 1 1000). lra. Defined.

(** X9: the magnitude is always a non-negative whole number of tenths,
    and for a positive energy it is within 0.05 of the clamped formula. *)
Theorem impact_earthquake_magnitude_tenths (megatons : R) :
  exists n : Z,
    (0 <= n)%Z /\
    impact_earthquake_magnitude megatons = IZR n / 10 /\
    (0 < megatons ->
     Rabs (impact_earthquake_magnitude megatons
           - spec_earthquake_magnitude megatons) <= 0.05).
Proof.
  destruct (Rle_dec megatons 0) as [Hm | Hm].
  - exists 0%Z. rewrite impact_earthquake_magnitude_nonpos by assumption.
    split; [lia |]. split; [lra | intros; lra].
  - assert (Hpos : 0 < megatons) by lra.
    rewrite impact_earthquake_magnitude_pos by assumption.
    exists (rint (spec_earthquake_magnitude megatons * 10 ^ 1)).
    split; [| split].
    + apply rint_nonneg. unfold spec_earthquake_magnitude.
      pose proof (Rmax_l 0 (0.67 * (ln (megatons * 4.184e15) / ln 10) - 10.7)).
      simpl. nra.
    + unfold py_round. simpl. f_equal. lra.
    + intros _.
      pose proof (py_round_near (spec_earthquake_magnitude megatons) 1) as H.
      simpl in H. eapply Rle_trans; [exact H |]. lra.
Qed.

Lemma impact_earthquake_magnitude_tenths_witness :
  exists n : Z,
    (0 <= n)%Z /\
    impact_earthquake_magnitude 1000 = IZR n / 10 /\
    Rabs (impact_earthquake_magnitude 1000 - spec_earthquake_magnitude 1000)
    <= 0.05.
Proof.
  destruct (impact_earthquake_magnitude_tenths 1000) as (n & Hn & Heq & Hnear).
  exists n. split; [exact Hn |]. split; [exact Heq |]. apply Hnear. lra.
Defined.

(** At 2 megatons the formula is still below zero. *)
Lemma clamped_magnitude_at_two : spec_earthquake_magnitude 2 = 0.
Proof.
  assert (Hlog : ln (2 * 4.184e15) / ln 10 <= 15.97).
  { replace 15.97 with (IZR 1597 / IZR 100) by lra.
    apply (log10_upper _ (8368 * 10 ^ 12)); [lia | lia | lra | |].
    - rewrite mult_IZR, IZR_pow10 by lia. simpl. lra.
    - apply Z.leb_le. vm_compute. reflexivity. }
  unfold spec_earthquake_magnitude. apply Rmax_left. lra.
Qed.

(** At 3 megatons it rounds to one tenth. *)
Lemma rounded_magnitude_at_three :
  py_round (spec_earthquake_magnitude 3) 1 = 0.1.
Proof.
  assert (Hlo : 16.05 <= ln (3 * 4.184e15) / ln 10).
  { replace 16.05 with (IZR 1605 / IZR 100) by lra.
    apply (log10_lower _ (12552 * 10 ^ 12)); [lia | lia | lia | |].
    - rewrite mult_IZR, IZR_pow10 by lia. simpl. lra.
    - apply Z.leb_le. vm_compute. reflexivity. }
  assert (Hhi : ln (3 * 4.184e15) / ln 10 <= 16.1).
  { replace 16.1 with (IZR 161 / IZR 10) by lra.
    apply (log10_upper _ (12552 * 10 ^ 12)); [lia | lia | lra | |].
    - rewrite mult_IZR, IZR_pow10 by lia. simpl. lra.
    - apply Z.leb_le. vm_compute. reflexivity. }
  unfold spec_earthquake_magnitude. rewrite Rmax_right by lra.
  rewrite (py_round_unique _ 1 1); [simpl; lra |].
  simpl. lra.
Qed.

(** X10: every energy of at most 2 megatons, zero and negative ones
    included, gets magnitude 0, and every energy of at least 3 megatons gets
    a magnitude of at least 0.1. *)
Theorem impact_earthquake_magnitude_threshold (megatons : R) :
  (megatons <= 2 -> impact_earthquake_magnitude megatons = 0) /\
  (3 <= megatons -> 0.1 <= impact_earthquake_magnitude megatons).
Proof.
  split; intros Hm.
  - destruct (Rle_dec megatons 0) as [Hneg | Hpos].
    + now apply impact_earthquake_magnitude_nonpos.
    + rewrite impact_earthquake_magnitude_pos by lra.
      pose proof (spec_earthquake_magnitude_monotone megatons 2) as Hle.
      rewrite clamped_magnitude_at_two in Hle.
      assert (Hge : 0 <= spec_earthquake_magnitude megatons)
        by (unfold spec_earthquake_magnitude; apply Rmax_l).
      replace (spec_earthquake_magnitude megatons) with 0 by lra.
      apply py_round_zero.
  - rewrite impact_earthquake_magnitude_pos by lra.
    rewrite <- rounded_magnitude_at_three.
    apply py_round_monotone, spec_earthquake_magnitude_monotone; lra.
Qed.

Lemma impact_earthquake_magnitude_threshold_witness :
  impact_earthquake_magnitude 1 = 0 /\ 0.1 <= impact_earthquake_magnitude 1000.
Proof.
  split.
  - apply (proj1 (impact_earthquake_magnitude_threshold 1)). lra.
  - apply (proj2 (impact_earthquake_magnitude_threshold 1000)). lra.
Defined.

(** ** The simulate operation, continued *)

Section SimulateMore.

Variables (data : Request.t) (rnd : Z) (fs : file_state).

Let diameter := get (Request.diameter_m data) 50.
Let velocity := get (Request.velocity_km_s data) 20.
Let pop_density := get (Request.pop_density_per_km2 data) 1000.
Let energy_mt := asteroid_kinetic_energy diameter velocity default_density.

(** The record that a successful request returns, field by field. *)
Lemma simulate_impact_returns (ev : Impact.t) (fs' : file_state) :
  simulate_impact data rnd fs = (Returns ev, fs') ->
  exists radius_km lat lon,
    impact_radius_km energy_mt = Real radius_km /\
    0 <= energy_mt /\ 0 <= radius_km /\
    Request.latitude data = Some lat /\
    Request.longitude data = Some lon /\
    fs' = Holds (stored fs ++ [ev]) /\
    ev = {| Impact.id := sim_id rnd;
            Impact.name := (py_round lat 2, py_round lon 2);
            Impact.latitude := Some lat;
            Impact.longitude := Some lon;
            Impact.diameter_m := diameter;
            Impact.velocity_km_s := velocity;
            Impact.energy_megatons := py_round energy_mt 2;
            Impact.impact_radius_km := py_round radius_km 2;
            Impact.population_affected := py_int (PI * radius_km ^ 2 * pop_density);
            Impact.earthquake_magnitude := impact_earthquake_magnitude energy_mt |}.
Proof.
  intros Hsim.
  destruct (Rlt_dec energy_mt 0) as [Hneg | Hpos].
  { rewrite (simulate_impact_negative_energy data rnd fs Hneg) in Hsim.
    discriminate. }
  destruct (impact_radius_km_nonneg energy_mt) as [r [Hr Hr0]]; [lra |].
  rewrite (simulate_impact_real_radius data rnd fs r Hr) in Hsim.
  unfold bind, lift in Hsim.
  destruct (Request.latitude data) as [lat |] eqn:Hlat; [| discriminate].
  destruct (Request.longitude data) as [lon |] eqn:Hlon; [| discriminate].
  simpl in Hsim. rewrite save_impact_result in Hsim. simpl in Hsim.
  injection Hsim as Hev Hfs.
  exists r, lat, lon. repeat split; try assumption; try lra.
  - now rewrite <- Hfs, Hev.
  - now rewrite <- Hev.
Qed.

(** A request fails on the complex radius, or fails on a missing
    coordinate, or returns. *)
Lemma simulate_impact_cases :
  (energy_mt < 0 /\
   simulate_impact data rnd fs = (Raises (TypeError IntOfComplex), fs)) \/
  (0 <= energy_mt /\
   (Request.latitude data = None \/ Request.longitude data = None) /\
   simulate_impact data rnd fs = (Raises (TypeError RoundOfNone), fs)) \/
  (0 <= energy_mt /\
   exists lat lon ev,
     Request.latitude data = Some lat /\ Request.longitude data = Some lon /\
     simulate_impact data rnd fs = (Returns ev, Holds (stored fs ++ [ev]))).
Proof.
  destruct (Rlt_dec energy_mt 0) as [Hneg | Hpos].
  { left. split; [exact Hneg |]. now apply simulate_impact_negative_energy. }
  right. assert (H0 : 0 <= energy_mt) by lra.
  destruct (impact_radius_km_nonneg energy_mt H0) as [r [Hr _]].
  destruct (Request.latitude data) as [lat |] eqn:Hlat.
  - destruct (Request.longitude data) as [lon |] eqn:Hlon.
    + right. split; [exact H0 |].
      destruct (simulate_impact_with_coordinates data rnd fs r lat lon Hr Hlat Hlon)
        as (ev & Hsim & _).
      now exists lat, lon, ev.
    + left. split; [exact H0 |]. split; [now right |].
      rewrite (simulate_impact_real_radius data rnd fs r Hr).
      unfold bind, lift. now rewrite Hlat, Hlon.
  - left. split; [exact H0 |]. split; [now left |].
    rewrite (simulate_impact_real_radius data rnd fs r Hr).
    unfold bind, lift. now rewrite Hlat.
Qed.

End SimulateMore.

(** With the default density the energy is negative exactly for a negative
    diameter and a velocity other than zero. *)
Lemma energy_sign (d v : R) :
  0 <= asteroid_kinetic_energy d v default_density <-> 0 <= d \/ v = 0.
Proof.
  rewrite asteroid_kinetic_energy_closed. unfold default_density.
  pose proof PI_RGT_0 as Hpi.
  assert (Hc : 0 < PI * 3000 * (10 ^ 6 / (12 * 4.184e15))).
  { apply Rmult_lt_0_compat; lra. }
  replace (PI * 3000 * d ^ 3 * v ^ 2 * (10 ^ 6 / (12 * 4.184e15)))
    with (PI * 3000 * (10 ^ 6 / (12 * 4.184e15)) * (d ^ 3 * v ^ 2)) by ring.
  set (c := PI * 3000 * (10 ^ 6 / (12 * 4.184e15))) in *.
  pose proof (pow2_ge_0 v) as Hv2. pose proof (pow2_ge_0 d) as Hd2.
  split.
  - intros HE.
    destruct (Rle_dec 0 d) as [Hd | Hd]; [now left | right].
    destruct (Req_dec_T v 0) as [Hv | Hv]; [exact Hv | exfalso].
    assert (0 < v ^ 2) by (apply square_pos; exact Hv).
    assert (d ^ 3 < 0).
    { replace (d ^ 3) with (d * d ^ 2) by ring.
      assert (0 < d ^ 2) by (apply square_pos; lra). nra. }
    assert (d ^ 3 * v ^ 2 < 0) by nra. nra.
  - intros [Hd | ->].
    + assert (0 <= d ^ 3).
      { replace (d ^ 3) with (d * d ^ 2) by ring. nra. }
      assert (0 <= d ^ 3 * v ^ 2) by nra. nra.
    + replace (d ^ 3 * 0 ^ 2) with 0 by ring. lra.
Qed.

Lemma simulate_impact_returns_when
  (data : Request.t) (rnd : Z) (fs : file_state) (lat lon : R) :
  Request.latitude data = Some lat ->
  Request.longitude data = Some lon ->
  0 <= asteroid_kinetic_energy (get (Request.diameter_m data) 50)
         (get (Request.velocity_km_s data) 20) default_density ->
  exists ev, simulate_impact data rnd fs = (Returns ev, Holds (stored fs ++ [ev])).
Proof.
  intros Hlat Hlon HE.
  destruct (impact_radius_km_nonneg _ HE) as [r [Hr _]].
  destruct (simulate_impact_with_coordinates data rnd fs r lat lon Hr Hlat Hlon)
    as (ev & Hsim & _).
  now exists ev.
Qed.

(** The two sample requests with coordinates return a record. *)
Lemma simulate_default_returns (fs : file_state) :
  exists ev,
    simulate_impact default_request 12345 fs = (Returns ev, Holds (stored fs ++ [ev])).
Proof.
  apply (simulate_impact_returns_when default_request 12345 fs 0 0);
    try reflexivity.
  apply energy_sign. left. simpl. lra.
Qed.

Lemma simulate_zero_diameter_returns (fs : file_state) :
  exists ev,
    simulate_impact zero_diameter_request 12345 fs
    = (Returns ev, Holds (stored fs ++ [ev])).
Proof.
  apply (simulate_impact_returns_when zero_diameter_request 12345 fs 0 0);
    try reflexivity.
  apply energy_sign. left. simpl. lra.
Qed.

(** X17: a simulate request either returns a record and leaves the file
    holding the prior records followed by that record, or raises a
    [TypeError] and leaves the file exactly as it was. *)
Theorem simulate_impact_appends_or_leaves
  (data : Request.t) (rnd : Z) (fs : file_state) :
  (exists ev,
     simulate_impact data rnd fs = (Returns ev, Holds (stored fs ++ [ev]))) \/
  (exists what,
     simulate_impact data rnd fs = (Raises (TypeError what), fs)).
Proof.
  destruct (simulate_impact_cases data rnd fs)
    as [[_ H] | [(_ & _ & H) | (_ & lat & lon & ev & _ & _ & H)]].
  - right. now exists IntOfComplex.
  - right. now exists RoundOfNone.
  - left. now exists ev.
Qed.

(** X18: a simulate request returns a record exactly when the body gives
    both coordinates and the diameter is not negative or the velocity is
    zero (defaults 50 and 20 standing in for omitted fields). *)
Theorem simulate_impact_succeeds_iff
  (data : Request.t) (rnd : Z) (fs : file_state) :
  (exists ev fs', simulate_impact data rnd fs = (Returns ev, fs')) <->
  Request.latitude data <> None /\
  Request.longitude data <> None /\
  (0 <= get (Request.diameter_m data) 50 \/ get (Request.velocity_km_s data) 20 = 0).
Proof.
  rewrite <- energy_sign. split.
  - intros (ev & fs' & Hsim).
    destruct (simulate_impact_returns data rnd fs ev fs' Hsim)
      as (r & lat & lon & _ & HE & _ & Hlat & Hlon & _).
    rewrite Hlat, Hlon. repeat split; try discriminate. exact HE.
  - intros (Hlat & Hlon & HE).
    destruct (simulate_impact_cases data rnd fs)
      as [[Hneg _] | [(_ & [Hnone | Hnone] & _) | (_ & lat & lon & ev & _ & _ & H)]].
    + lra.
    + contradiction.
    + contradiction.
    + now exists ev, (Holds (stored fs ++ [ev])).
Qed.

(** X19: in every returned record the energy, the radius and the magnitude
    are non-negative, and the population has the sign of the population
    density. *)
Theorem simulate_impact_fields_nonnegative
  (data : Request.t) (rnd : Z) (fs fs' : file_state) (ev : Impact.t) :
  simulate_impact data rnd fs = (Returns ev, fs') ->
  0 <= Impact.energy_megatons ev /\
  0 <= Impact.impact_radius_km ev /\
  0 <= Impact.earthquake_magnitude ev /\
  (0 <= get (Request.pop_density_per_km2 data) 1000 ->
   (0 <= Impact.population_affected ev)%Z) /\
  (get (Request.pop_density_per_km2 data) 1000 <= 0 ->
   (Impact.population_affected ev <= 0)%Z).
Proof.
  intros Hsim.
  destruct (simulate_impact_returns data rnd fs ev fs' Hsim)
    as (r & lat & lon & _ & HE & Hr & _ & _ & _ & ->).
  cbn [Impact.energy_megatons Impact.impact_radius_km
       Impact.earthquake_magnitude Impact.population_affected].
  assert (Harea : 0 <= PI * r ^ 2).
  { pose proof PI_RGT_0. pose proof (pow2_ge_0 r). apply Rmult_le_pos; lra. }
  split; [now apply py_round_nonneg |].
  split; [now apply py_round_nonneg |].
  split; [apply magnitude_nonneg |].
  set (dens := get (Request.pop_density_per_km2 data) 1000).
  replace (PI * r ^ 2 * dens) with (dens * (PI * r ^ 2)) by ring.
  split; intros Hd.
  - assert (Hx : 0 <= dens * (PI * r ^ 2)) by now apply Rmult_le_pos.
    rewrite py_int_nonneg by exact Hx. now apply Zfloor_lub.
  - assert (Hx : dens * (PI * r ^ 2) <= 0).
    { rewrite <- (Rmult_0_l (PI * r ^ 2)). now apply Rmult_le_compat_r. }
    rewrite py_int_nonpos by exact Hx.
    pose proof (Zceil_bound (dens * (PI * r ^ 2))) as [Hlo _].
    assert (H : IZR (Zceil (dens * (PI * r ^ 2))) < 0 + 1) by lra.
    rewrite <- plus_IZR in H. apply lt_IZR in H. lia.
Qed.

Lemma simulate_impact_fields_nonnegative_witness :
  exists ev,
    0 <= Impact.energy_megatons ev /\
    0 <= Impact.impact_radius_km ev /\
    0 <= Impact.earthquake_magnitude ev /\
    (0 <= Impact.population_affected ev)%Z.
Proof.
  destruct (simulate_default_returns Missing) as (ev & Hsim).
  destruct (simulate_impact_fields_nonnegative default_request 12345 Missing _ ev Hsim)
    as (HE & Hr & Hm & Hp & _).
  exists ev. repeat split; try assumption. apply Hp. simpl. lra.
Defined.

(** X20: when the diameter or the velocity is zero, a returned record has
    energy 0, radius 0, population 0 and magnitude 0: the logarithm of zero
    joules does not make the request fail. *)
Theorem simulate_impact_zero_energy
  (data : Request.t) (rnd : Z) (fs fs' : file_state) (ev : Impact.t) :
  simulate_impact data rnd fs = (Returns ev, fs') ->
  get (Request.diameter_m data) 50 = 0 \/ get (Request.velocity_km_s data) 20 = 0 ->
  Impact.energy_megatons ev = 0 /\
  Impact.impact_radius_km ev = 0 /\
  Impact.population_affected ev = 0%Z /\
  Impact.earthquake_magnitude ev = 0.
Proof.
  intros Hsim Hzero.
  destruct (simulate_impact_returns data rnd fs ev fs' Hsim)
    as (r & lat & lon & Hr & _ & _ & _ & _ & _ & ->).
  cbn [Impact.energy_megatons Impact.impact_radius_km
       Impact.earthquake_magnitude Impact.population_affected].
  assert (HE : asteroid_kinetic_energy (get (Request.diameter_m data) 50)
                 (get (Request.velocity_km_s data) 20) default_density = 0).
  { rewrite asteroid_kinetic_energy_closed. destruct Hzero as [-> | ->]; ring. }
  rewrite HE in *. rewrite impact_radius_km_zero in Hr.
  injection Hr as <-.
  rewrite !py_round_zero.
  repeat split.
  - replace (PI * 0 ^ 2 * _) with 0 by ring.
    rewrite py_int_nonneg by lra. change 0 with (IZR 0). apply ZfloorZ.
  - apply impact_earthquake_magnitude_nonpos. lra.
Qed.

Lemma simulate_impact_zero_energy_witness :
  exists ev,
    simulate_impact zero_diameter_request 12345 Missing
    = (Returns ev, Holds (stored Missing ++ [ev])) /\
    Impact.energy_megatons ev = 0 /\
    Impact.impact_radius_km ev = 0 /\
    Impact.population_affected ev = 0%Z /\
    Impact.earthquake_magnitude ev = 0.
Proof.
  destruct (simulate_zero_diameter_returns Missing) as (ev & Hsim).
  exists ev. split; [exact Hsim |].
  apply (simulate_impact_zero_energy zero_diameter_request 12345 Missing _ ev Hsim).
  left. reflexivity.
Defined.

(** X21: a returned record stores the coordinates as the body gave them;
    its energy and radius are within 0.005 of the computed energy and
    radius, and the two numbers of its name within 0.005 of the
    coordinates. *)
Theorem simulate_impact_rounding_error
  (data : Request.t) (rnd : Z) (fs fs' : file_state) (ev : Impact.t) :
  simulate_impact data rnd fs = (Returns ev, fs') ->
  let energy_mt :=
    asteroid_kinetic_energy (get (Request.diameter_m data) 50)
      (get (Request.velocity_km_s data) 20) default_density in
  exists radius_km lat lon,
    impact_radius_km energy_mt = Real radius_km /\
    Request.latitude data = Some lat /\ Request.longitude data = Some lon /\
    Impact.latitude ev = Some lat /\ Impact.longitude ev = Some lon /\
    Rabs (Impact.energy_megatons ev - energy_mt) <= 0.005 /\
    Rabs (Impact.impact_radius_km ev - radius_km) <= 0.005 /\
    Rabs (fst (Impact.name ev) - lat) <= 0.005 /\
    Rabs (snd (Impact.name ev) - lon) <= 0.005.
Proof.
  intros Hsim energy_mt.
  destruct (simulate_impact_returns data rnd fs ev fs' Hsim)
    as (r & lat & lon & Hr & _ & _ & Hlat & Hlon & _ & ->).
  exists r, lat, lon.
  cbn [Impact.energy_megatons Impact.impact_radius_km Impact.latitude
       Impact.longitude Impact.name fst snd].
  assert (Hhalf : / (2 * 10 ^ 2) = 0.005) by lra.
  repeat split; try assumption;
    rewrite <- Hhalf; apply py_round_near.
Qed.

Lemma simulate_impact_rounding_error_witness :
  exists ev radius_km,
    impact_radius_km (asteroid_kinetic_energy 50 20 default_density)
    = Real radius_km /\
    Rabs (Impact.energy_megatons ev
          - asteroid_kinetic_energy 50 20 default_density) <= 0.005 /\
    Rabs (Impact.impact_radius_km ev - radius_km) <= 0.005.
Proof.
  destruct (simulate_default_returns Missing) as (ev & Hsim).
  destruct (simulate_impact_rounding_error default_request 12345 Missing _ ev Hsim)
    as (r & lat & lon & Hr & _ & _ & _ & _ & HE & Hrad & _).
  exists ev, r. repeat split; assumption.
Defined.

(** X23: deleting the id of a record that [simulate_impact] has just
    returned answers 200 and removes it, together with every older record
    that happens to carry the same id; when no older record does, the file
    holds the prior records again. *)
Theorem simulate_then_delete
  (data : Request.t) (rnd : Z) (fs fs' : file_state) (ev : Impact.t) :
  simulate_impact data rnd fs = (Returns ev, fs') ->
  delete_impact (Impact.id ev) fs'
  = (Returns (Response 200 "message" ("Impact " ++ Impact.id ev ++ " deleted")),
     Holds (filter (fun i => negb (Impact.id i =? Impact.id ev)%string)
              (stored fs))) /\
  ((forall i, In i (stored fs) -> Impact.id i <> Impact.id ev) ->
   snd (delete_impact (Impact.id ev) fs') = Holds (stored fs)).
Proof.
  intros Hsim.
  destruct (simulate_impact_returns data rnd fs ev fs' Hsim)
    as (_ & _ & _ & _ & _ & _ & _ & _ & -> & _).
  assert (Hdel : delete_impact (Impact.id ev) (Holds (stored fs ++ [ev]))
                 = (Returns (Response 200 "message"
                               ("Impact " ++ Impact.id ev ++ " deleted")),
                    Holds (filter (fun i => negb (Impact.id i =? Impact.id ev)%string)
                             (stored fs)))).
  { rewrite delete_impact_found.
    - simpl. rewrite filter_app. simpl. rewrite String.eqb_refl. simpl.
      now rewrite app_nil_r.
    - exists ev. split; [| reflexivity]. simpl. apply in_or_app. right. now left. }
  split; [exact Hdel |].
  intros Hfresh. rewrite Hdel. simpl. f_equal.
  apply forallb_filter_id, forallb_forall. intros i Hi.
  apply negb_true_iff, String.eqb_neq. now apply Hfresh.
Qed.

Lemma simulate_then_delete_witness :
  exists ev,
    simulate_impact default_request 12345 Missing = (Returns ev, Holds [ev]) /\
    snd (delete_impact (Impact.id ev) (Holds [ev])) = Holds [].
Proof.
  destruct (simulate_default_returns Missing) as (ev & Hsim).
  exists ev. split; [exact Hsim |].
  apply (simulate_then_delete default_request 12345 Missing _ ev Hsim).
  intros i [].
Defined.

(** ** Generated identifiers *)

Lemma all_from_spec (p : Z -> bool) (fuel : nat) (z k : Z) :
  all_from z fuel p = true -> (z <= k < z + Z.of_nat fuel)%Z -> p k = true.
Proof.
  revert z. induction fuel as [| fuel IH]; intros z Hall Hk.
  - simpl in Hk. lia.
  - simpl in Hall. apply andb_true_iff in Hall as [Hz Hrest].
    destruct (Z.eq_dec k z) as [-> | Hne]; [exact Hz |].
    apply (IH (z + 1)%Z Hrest). lia.
Qed.

Lemma Z_to_int_proper (z : Z) :
  Z.to_int z <> Decimal.Pos Decimal.Nil /\ Z.to_int z <> Decimal.Neg Decimal.Nil.
Proof.
  destruct z as [| p | p]; simpl; split; try discriminate;
    intros H; injection H as H; now apply (Unsigned.to_uint_nonnil p).
Qed.

(** Different draws give different identifiers. *)
Lemma sim_id_injective (a b : Z) : sim_id a = sim_id b -> a = b.
Proof.
  unfold sim_id. intros H. simpl in H. injection H as H.
  apply (f_equal NilZero.int_of_string) in H.
  destruct (Z_to_int_proper a) as [Ha1 Ha2].
  destruct (Z_to_int_proper b) as [Hb1 Hb2].
  rewrite !NilZero.isi in H by assumption.
  injection H as H.
  apply (f_equal Z.of_int) in H. now rewrite !DecimalZ.of_to in H.
Qed.

(** Every draw of [randint(10000, 99999)] prints as five digits. *)
Lemma sim_id_five_digits (rnd : Z) :
  (10000 <= rnd < 99999)%Z -> String.length (sim_id rnd) = 9%nat.
Proof.
  intros Hrange.
  apply Nat.eqb_eq.
  apply (all_from_spec (fun z => Nat.eqb (String.length (sim_id z)) 9)
           (Z.to_nat 89999) 10000).
  - vm_compute. reflexivity.
  - rewrite Z2Nat.id by lia. lia.
Qed.

(** X22: two returned records share their id exactly when the two draws
    were equal, whatever the requests; a generated id starts with [sim_], so
    it is none of the three historical ids; and for a draw in the range of
    [randint(10000, 99999)] it is nine characters long. *)
Theorem simulated_ids
  (data1 data2 : Request.t) (rnd1 rnd2 : Z) (fs1 fs2 fs1' fs2' : file_state)
  (ev1 ev2 : Impact.t) :
  simulate_impact data1 rnd1 fs1 = (Returns ev1, fs1') ->
  simulate_impact data2 rnd2 fs2 = (Returns ev2, fs2') ->
  (Impact.id ev1 = Impact.id ev2 <-> rnd1 = rnd2) /\
  ~ In (Impact.id ev1) (map Historical.id HISTORICAL_IMPACTS) /\
  String.prefix "sim_" (Impact.id ev1) = true /\
  ((10000 <= rnd1 < 99999)%Z -> String.length (Impact.id ev1) = 9%nat).
Proof.
  intros H1 H2.
  destruct (simulate_impact_returns data1 rnd1 fs1 ev1 fs1' H1)
    as (r1 & lat1 & lon1 & _ & _ & _ & _ & _ & _ & ->).
  destruct (simulate_impact_returns data2 rnd2 fs2 ev2 fs2' H2)
    as (r2 & lat2 & lon2 & _ & _ & _ & _ & _ & _ & ->).
  cbn [Impact.id]. split; [| split; [| split]].
  - split; [apply sim_id_injective | now intros ->].
  - simpl. intros [H | [H | [H | []]]]; discriminate H.
  - unfold sim_id. simpl. now destruct (NilZero.string_of_int _).
  - apply sim_id_five_digits.
Qed.

Lemma simulated_ids_witness :
  exists ev1 ev2,
    (Impact.id ev1 = Impact.id ev2 <-> 12345%Z = 12345%Z) /\
    ~ In (Impact.id ev1) (map Historical.id HISTORICAL_IMPACTS) /\
    String.length (Impact.id ev1) = 9%nat.
Proof.
  destruct (simulate_default_returns Missing) as (ev1 & H1).
  destruct (simulate_zero_diameter_returns Unparseable) as (ev2 & H2).
  destruct (simulated_ids _ _ _ _ _ _ _ _ ev1 ev2 H1 H2)
    as (Hiff & Hhist & _ & Hlen).
  exists ev1, ev2. repeat split; try apply Hiff; try assumption.
  apply Hlen. lia.
Defined.

(** ** The catalog *)

Lemma get_impacts_result (fs : file_state) :
  get_impacts fs
  = (Returns (map HistoricalEntry HISTORICAL_IMPACTS
              ++ map SimulatedEntry (stored fs)), fs).
Proof. unfold get_impacts, bind. now rewrite load_impacts_stored. Qed.



(** X25: after [delete_impact], whatever the id, the catalog is the former
    catalog without the simulated records of that id; the three historical
    entries are still its first three, also when the id is a historical
    one. *)
Theorem get_impacts_after_delete (impact_id : string) (fs : file_state) :
  let fs' := snd (delete_impact impact_id fs) in
  exists before after,
    get_impacts fs = (Returns before, fs) /\
    get_impacts fs' = (Returns after, fs') /\
    after = filter (keeps_entry impact_id) before /\
    firstn 3 after = map HistoricalEntry HISTORICAL_IMPACTS.
Proof.
  intros fs'. do 2 eexists.
  split; [apply get_impacts_result |].
  split; [apply get_impacts_result |].
  subst fs'. rewrite delete_impact_stored. split; [| reflexivity].
  rewrite filter_app. simpl. do 3 f_equal.
  induction (stored fs) as [| x l IH]; simpl; [reflexivity |].
  destruct (negb _); simpl; now rewrite IH.
Qed.

(** X26: after a simulate request that returned a record, the catalog is
    the former catalog followed by that record. *)
Theorem get_impacts_after_simulate
  (data : Request.t) (rnd : Z) (fs fs' : file_state) (ev : Impact.t) :
  simulate_impact data rnd fs = (Returns ev, fs') ->
  exists before,
    get_impacts fs = (Returns before, fs) /\
    get_impacts fs' = (Returns (before ++ [SimulatedEntry ev]), fs').
Proof.
  intros Hsim.
  destruct (simulate_impact_returns data rnd fs ev fs' Hsim)
    as (_ & _ & _ & _ & _ & _ & _ & _ & -> & _).
  eexists. split; [apply get_impacts_result |].
  rewrite get_impacts_result. simpl.
  now rewrite map_app.
Qed.

Lemma get_impacts_after_simulate_witness :
  exists ev before,
    get_impacts Missing = (Returns before, Missing) /\
    get_impacts (Holds [ev]) = (Returns (before ++ [SimulatedEntry ev]), Holds [ev]).
Proof.
  destruct (simulate_default_returns Missing) as (ev & Hsim).
  destruct (get_impacts_after_simulate default_request 12345 Missing _ ev Hsim)
    as (before & Hb & Ha).
  now exists ev, before.
Defined.

(** ** The near-earth-object adapter *)

Section AdapterFacts.

Variable py_float : string -> option R.

Lemma summarize_summarizes (neo : Neo.t) (a : Asteroid.t) :
  summarize py_float neo = Some a -> summarizes py_float neo a.
Proof.
  unfold summarize, rel_vel, summarizes.
  destruct (Neo.close_approach_data neo) as [| first rest].
  - intros [= <-]. simpl. repeat split.
    change 20 with (IZR 20). apply py_round_integer.
  - destruct (py_float first) as [v |] eqn:Hv; [| discriminate].
    intros [= <-]. simpl. repeat split. now exists v.
Qed.

Lemma summarize_fails (neo : Neo.t) :
  summarize py_float neo = None <->
  exists first rest,
    Neo.close_approach_data neo = first :: rest /\ py_float first = None.
Proof.
  unfold summarize, rel_vel.
  destruct (Neo.close_approach_data neo) as [| first rest].
  - split; [discriminate | intros (f & r & H & _); discriminate].
  - destruct (py_float first) as [v |] eqn:Hv.
    + split; [discriminate |].
      intros (f & r & [= <- <-] & Hf). congruence.
    + split; [| reflexivity]. intros _. now exists first, rest.
Qed.

(** The loop appends to what it was given. *)
Lemma collect_appends (neos : list Neo.t) (acc : list Asteroid.t) :
  collect py_float neos acc
  = match collect py_float neos [] with
    | Some l => Some (acc ++ l)
    | None => None
    end.
Proof.
  revert acc. induction neos as [| neo rest IH]; intros acc; simpl.
  - now rewrite app_nil_r.
  - destruct (summarize py_float neo) as [a |]; [| reflexivity].
    rewrite (IH (acc ++ [a])), (IH [a]).
    destruct (collect py_float rest []); [| reflexivity].
    now rewrite <- app_assoc.
Qed.

Lemma collect_summarizes (neos : list Neo.t) (asteroids : list Asteroid.t) :
  collect py_float neos [] = Some asteroids ->
  Forall2 (summarizes py_float) neos asteroids.
Proof.
  revert asteroids. induction neos as [| neo rest IH]; intros asteroids; simpl.
  - intros [= <-]. constructor.
  - destruct (summarize py_float neo) as [a |] eqn:Ha; [| discriminate].
    rewrite collect_appends.
    destruct (collect py_float rest []) as [l |]; [| discriminate].
    intros [= <-]. simpl. constructor.
    + now apply summarize_summarizes.
    + now apply IH.
Qed.

Lemma collect_fails (neos : list Neo.t) :
  collect py_float neos [] = None <->
  exists neo, In neo neos /\ summarize py_float neo = None.
Proof.
  induction neos as [| neo rest IH]; simpl.
  - split; [discriminate | intros (n & [] & _)].
  - destruct (summarize py_float neo) as [a |] eqn:Ha.
    + rewrite collect_appends.
      destruct (collect py_float rest []) as [l |].
      * split; [discriminate |].
        intros (n & [<- | Hin] & Hn); [congruence |].
        assert (H : Some l = None) by (apply IH; now exists n).
        discriminate H.
      * split; [| reflexivity]. intros _.
        destruct (proj1 IH eq_refl) as (n & Hin & Hn).
        exists n. split; [now right | exact Hn].
    + split; [| reflexivity]. intros _. exists neo. split; [now left | exact Ha].
Qed.

End AdapterFacts.

(** X27: when [get_nasa_asteroids] answers with a list, [count] is the
    number of upstream objects, and the list has one summary per object, in
    upstream order: id, name and hazard flag copied, the diameter rounded to
    two decimals, and the velocity that of the first approach rounded to two
    decimals, or 20 for an object with no approach. *)
Theorem get_nasa_asteroids_summaries
  (py_float : string -> option R) (neos : list Neo.t)
  (count : nat) (asteroids : list Asteroid.t) :
  get_nasa_asteroids py_float (UpstreamData neos) = NasaOk count asteroids ->
  count = List.length neos /\
  List.length asteroids = List.length neos /\
  Forall2 (summarizes py_float) neos asteroids.
Proof.
  unfold get_nasa_asteroids.
  destruct (collect py_float neos []) as [l |] eqn:Hl; [| discriminate].
  intros [= <- <-].
  pose proof (collect_summarizes py_float neos l Hl) as Hall.
  pose proof (Forall2_length Hall) as Hlen.
  repeat split; try assumption; now symmetry.
Qed.

Lemma get_nasa_asteroids_summaries_witness :
  exists count asteroids,
    get_nasa_asteroids sample_float (UpstreamData sample_neos)
    = NasaOk count asteroids /\
    count = List.length sample_neos /\
    List.length asteroids = List.length sample_neos /\
    Forall2 (summarizes sample_float) sample_neos asteroids.
Proof.
  do 2 eexists. split; [reflexivity |].
  apply (get_nasa_asteroids_summaries sample_float sample_neos).
  reflexivity.
Defined.

(** X28: [get_nasa_asteroids] answers either with a list or with status
    500 and the fixed error text, never with part of a list.  It answers 500
    exactly when the upstream call failed or the first approach of some
    object has a velocity that [float] rejects; later approaches are not
    read. *)
Theorem get_nasa_asteroids_failure
  (py_float : string -> option R) (resp : upstream) :
  ((exists count asteroids,
      get_nasa_asteroids py_float resp = NasaOk count asteroids) \/
   get_nasa_asteroids py_float resp
   = NasaError 500 "error" "Failed to fetch from NASA API") /\
  (get_nasa_asteroids py_float resp
   = NasaError 500 "error" "Failed to fetch from NASA API" <->
   resp = UpstreamFailed \/
   exists neos neo first rest,
     resp = UpstreamData neos /\ In neo neos /\
     Neo.close_approach_data neo = first :: rest /\ py_float first = None).
Proof.
  destruct resp as [| neos]; simpl.
  - split; [now right |]. split; [now left | reflexivity].
  - destruct (collect py_float neos []) as [l |] eqn:Hl.
    + split; [left; now exists (List.length l), l |].
      split; [discriminate |].
      intros [H | (neos' & neo & first & rest & [= <-] & Hin & Hcad & Hf)];
        [discriminate |].
      assert (Hnone : collect py_float neos [] = None).
      { apply collect_fails. exists neo. split; [exact Hin |].
        apply summarize_fails. now exists first, rest. }
      congruence.
    + split; [now right |]. split; [| reflexivity]. intros _. right.
      apply collect_fails in Hl as (neo & Hin & Hneo).
      apply summarize_fails in Hneo as (first & rest & Hcad & Hf).
      now exists neos, neo, first, rest.
Qed.
